(** * Autonomous QA Agent: the RAG pipeline, embedded and verified

    A shallow embedding of the chunker ([utils/chunking.py]), the id
    assignment of the vector store ([services/vector_store.py]), the
    test-case generator with its validate / fallback machinery
    ([services/test_case_generator.py]) and the selector table of the script
    generator ([services/script_generator.py]).

    Python values are modelled as follows.
    - [int] is [Z]; a loop index that is known to be non-negative is [nat].
    - [str] is [string]; a character is a code point below 256, so that
      [str.isspace] and [str.lower] can be written out in full.
    - a [dict] with string keys is a [gmap string _]; JSON values are the
      inductive type [json].
    - an exception is an explicit [Raise] in the [result] monad; [try/except]
      is a [match] on it.
    - a [while] loop takes fuel; running out of fuel is [None]. *)

From Stdlib Require Import ZArith Ascii String List Lia Permutation.
From Stdlib Require Import Floats.SpecFloat.
From stdpp Require Import base option list gmap strings pretty fin_maps sets.

Set Warnings "-register-all".
#[local] Open Scope string_scope.
#[local] Open Scope Z_scope.
#[local] Open Scope list_scope.

(** ** Python strings *)

Module PyStr.

(** [len(s)] *)
Definition len (s : string) : Z := Z.of_nat (String.length s).

(** The newline character, written [\n] in the source. *)
Definition nl : string := String (ascii_of_nat 10) EmptyString.

(** [c.isspace()] for a code point below 256: TAB..CR, FS..US, SPACE, NEL and
    NBSP. The same predicate is [\s] in a [re] pattern over [str]. *)
Definition is_space (c : ascii) : bool :=
  let n := nat_of_ascii c in
  (((9 <=? n) && (n <=? 13)) || ((28 <=? n) && (n <=? 32))
   || (n =? 133) || (n =? 160))%nat.

Fixpoint all_space (s : string) : bool :=
  match s with
  | EmptyString => true
  | String c s' => is_space c && all_space s'
  end.

(** [s.lstrip()], [s.rstrip()] and [s.strip()] *)
Fixpoint lstrip (s : string) : string :=
  match s with
  | EmptyString => EmptyString
  | String c s' => if is_space c then lstrip s' else s
  end.

Fixpoint rstrip (s : string) : string :=
  match s with
  | EmptyString => EmptyString
  | String c s' =>
      match rstrip s' with
      | EmptyString => if is_space c then EmptyString else String c EmptyString
      | r => String c r
      end
  end.

Definition strip (s : string) : string := rstrip (lstrip s).

(** Truth value of a string: [if s:] *)
Definition truthy (s : string) : bool :=
  match s with EmptyString => false | _ => true end.

(** The adjustment CPython applies to one bound of a slice of a sequence of
    length [n]: a negative bound counts from the end, and the result is
    clamped to [0..n]. *)
Definition adjust_index (n i : Z) : Z :=
  if i <? 0 then Z.max 0 (i + n) else Z.min i n.

(** [s[a:b]] *)
Definition slice (s : string) (a b : Z) : string :=
  let lo := adjust_index (len s) a in
  let hi := adjust_index (len s) b in
  substring (Z.to_nat lo) (Z.to_nat (hi - lo)) s.

(** [s[:n]] for a non-negative literal [n] *)
Definition prefix_of_len (n : nat) (s : string) : string := substring 0 n s.

(** [s.rfind(d)]: the highest index at which [d] occurs in [s], or [-1]. *)
Fixpoint rfind_from (i : Z) (s d : string) : option Z :=
  match s with
  | EmptyString => if String.prefix d EmptyString then Some i else None
  | String _ s' =>
      match rfind_from (i + 1) s' d with
      | Some j => Some j
      | None => if String.prefix d s then Some i else None
      end
  end.

Definition rfind (s d : string) : Z := default (-1) (rfind_from 0 s d).

(** [d in s] *)
Fixpoint contains (d s : string) : bool :=
  match s with
  | EmptyString => String.prefix d EmptyString
  | String _ s' => String.prefix d s || contains d s'
  end.

(** [c.lower()] for a code point below 256: the ASCII capitals and the
    Latin-1 capitals other than the multiplication sign move up by 32.
    A string of the model is a [str] whose code points are all below 256.
    On such a string [s.lower()] works character by character, as below:
    the rules of [str.lower] that look at the neighbours of a letter (the
    final sigma) or give two characters for one start at U+0130. The
    statements on [lower] are statements on these strings only. *)
Definition lower_char (c : ascii) : ascii :=
  let n := nat_of_ascii c in
  if (((65 <=? n) && (n <=? 90))
      || ((192 <=? n) && (n <=? 222) && negb (n =? 215)))%nat
  then ascii_of_nat (n + 32) else c.

Fixpoint lower (s : string) : string :=
  match s with
  | EmptyString => EmptyString
  | String c s' => String (lower_char c) (lower s')
  end.

(** [c.upper()] for an ASCII letter; other ASCII characters are unchanged. *)
Definition upper_char (c : ascii) : ascii :=
  let n := nat_of_ascii c in
  if ((97 <=? n) && (n <=? 122))%nat then ascii_of_nat (n - 32) else c.

(** [s.capitalize()], for ASCII [s] (it is only applied to the keyword
    table below): first character upper-cased, the rest lower-cased. *)
Definition capitalize (s : string) : string :=
  match s with
  | EmptyString => EmptyString
  | String c s' => String (upper_char c) (lower s')
  end.

(** [sep.join(parts)] *)
Fixpoint join (sep : string) (parts : list string) : string :=
  match parts with
  | [] => EmptyString
  | [p] => p
  | p :: ps => p +:+ sep +:+ join sep ps
  end.

(** [str(n)] and [f"{n:03d}"] for a non-negative integer. *)
Definition str_of_nat (n : nat) : string := pretty n.

Definition fmt_03d (n : nat) : string :=
  let s := str_of_nat n in
  String.concat EmptyString (replicate (3 - String.length s)%nat "0") +:+ s.

End PyStr.

(** ** The chunker: [utils/chunking.py] *)

Module Chunking.
Import PyStr.

(** The sentence delimiters, in the order the source tries them. *)
Definition delimiters : list string :=
  [". "; "." +:+ nl; "!" +:+ nl; "?" +:+ nl].

(** The [for delimiter in ...: ... break] loop: the first delimiter that
    occurs in the window decides, with its last position. *)
Fixpoint find_break (window : string) (ds : list string) : option (Z * string) :=
  match ds with
  | [] => None
  | d :: ds' =>
      let last_delim := rfind window d in
      if last_delim =? -1 then find_break window ds' else Some (last_delim, d)
  end.

(** The value of [end] when the chunk is cut, for the window starting at
    [start]. *)
Definition window_end (text : string) (chunk_size start : Z) : Z :=
  let end_ := start + chunk_size in
  if end_ <? len text then
    match find_break (slice text start end_) delimiters with
    | Some (last_delim, d) => start + last_delim + len d
    | None => end_
    end
  else end_.

(** One iteration of the [while] body: the new [start] and the chunk that
    is appended, if any. *)
Definition chunk_step (text : string) (chunk_size overlap start : Z)
  : Z * option string :=
  let end_ := window_end text chunk_size start in
  let chunk := strip (slice text start end_) in
  (end_ - overlap, if truthy chunk then Some chunk else None).

(** [while start < len(text): ...] *)
Fixpoint chunk_loop (fuel : nat) (text : string) (chunk_size overlap start : Z)
  (chunks : list string) : option (list string) :=
  match fuel with
  | O => None
  | S fuel' =>
      if start <? len text then
        let '(start', chunk) := chunk_step text chunk_size overlap start in
        let chunks' :=
          match chunk with Some c => chunks ++ [c] | None => chunks end in
        chunk_loop fuel' text chunk_size overlap start' chunks'
      else Some chunks
  end.

(** [chunk_text(text, chunk_size, overlap)] *)
Definition chunk_text (fuel : nat) (text : string) (chunk_size overlap : Z)
  : option (list string) :=
  if len text <=? chunk_size then Some [text]
  else chunk_loop fuel text chunk_size overlap 0 [].

End Chunking.

(** ** JSON values and exceptions *)

(** What [json.loads] returns: [None], [bool], [int], [float], [str], [list]
    and [dict] with string keys. *)
Inductive json : Type :=
  | JNull
  | JBool (b : bool)
  | JInt (z : Z)
  | JFloat (f : spec_float)
  | JStr (s : string)
  | JList (l : list json)
  | JDict (d : gmap string json).

(** The exceptions that the modelled code can meet. *)
Inductive exn : Type :=
  | JSONDecodeError
  | AttributeError
  | OtherError (msg : string).

Inductive result (A : Type) : Type :=
  | Ok (a : A)
  | Raise (e : exn).
Arguments Ok {A} a.
Arguments Raise {A} e.

Definition bind {A B : Type} (r : result A) (k : A → result B) : result B :=
  match r with
  | Ok a => k a
  | Raise e => Raise e
  end.

Notation "x ←! r ; k" := (bind r (fun x => k))
  (at level 100, r at next level, right associativity).

(** A comprehension or [for] loop over [enumerate(l, start)] whose body may
    raise: the first exception ends the loop. *)
Fixpoint for_enumerate {A B : Type} (f : A → nat → result B) (start : nat)
  (l : list A) : result (list B) :=
  match l with
  | [] => Ok []
  | a :: l' =>
      b ←! f a start;
      bs ←! for_enumerate f (S start) l';
      Ok (b :: bs)
  end.

(** [l[:n]] for a Python list: a negative [n] drops [-n] elements from the
    end. *)
Definition list_prefix {A : Type} (l : list A) (n : Z) : list A :=
  take (Z.to_nat (PyStr.adjust_index (Z.of_nat (length l)) n)) l.

(** [range(n)] *)
Definition range (n : Z) : list nat := seq 0 (Z.to_nat n).

(** ** The test-case generator: [services/test_case_generator.py] *)

Module TestCaseGenerator.
Import PyStr.

(** *** [_validate_test_case] *)

(** [tc.get(key, default)] *)
Definition get (tc : gmap string json) (key : string) (dflt : json) : json :=
  default dflt (tc !! key).

(** [tc.get(key, dflt) if isinstance(tc.get(key), list) else dflt] *)
Definition get_list (tc : gmap string json) (key : string) (dflt : json) : json :=
  match tc !! key with
  | Some (JList l) => get tc key dflt
  | _ => dflt
  end.

(** The body of [_validate_test_case] once [tc] is known to be a [dict]. *)
Definition validate_dict (tc : gmap string json) (index : nat) : gmap string json :=
  {[ "test_id" := get tc "test_id" (JStr ("TC-" +:+ fmt_03d index));
     "feature" := get tc "feature" (JStr "Unknown Feature");
     "test_scenario" := get tc "test_scenario" (JStr "Test scenario");
     "test_type" := get tc "test_type" (JStr "positive");
     "preconditions" := get tc "preconditions" (JStr "None");
     "test_steps" := get_list tc "test_steps" (JList [JStr "Execute test"]);
     "expected_result" := get tc "expected_result" (JStr "Test passes");
     "grounded_in" := get_list tc "grounded_in" (JList [JStr "documentation"]);
     "priority" := get tc "priority" (JStr "medium") ]}.

(** [_validate_test_case(tc, index)]: only a [dict] has [.get]; on any other
    value the attribute lookup raises. *)
Definition _validate_test_case (tc : json) (index : nat) : result (gmap string json) :=
  match tc with
  | JDict d => Ok (validate_dict d index)
  | _ => Raise AttributeError
  end.

(** *** [_extract_features_from_context] and [_create_fallback_test_cases] *)

Definition keywords : list string :=
  ["button"; "form"; "input"; "field"; "cart"; "checkout"; "payment";
   "discount"; "shipping"].

(** The list [features] before [list(set(features))]. *)
Definition matched_features (context : string) : list string :=
  capitalize <$> filter (λ keyword, contains (lower keyword) (lower context) = true) keywords.

(** [list(set(l))]: the elements of [l] without repetition, in the iteration
    order of the interpreter's hash table. For strings that order depends on
    the hash seed of the process, so it is a parameter of the model; all
    that is known of it is that it enumerates the set. *)
Record set_order : Type := {
  list_of_set :> list string → list string;
  list_of_set_perm : ∀ l, list_of_set l ≡ₚ remove_dups l
}.

Section Generator.

Variable order : set_order.

Definition _extract_features_from_context (context : string) : list string :=
  take 10 (order (matched_features context)).

(** The record appended in iteration [i] of the fallback loop. *)
Definition fallback_case (features : list string) (i : nat) : gmap string json :=
  let feature :=
    if decide (i < length features)%nat
    then default "General Functionality" (features !! i)
    else "General Functionality" in
  {[ "test_id" := JStr ("TC-" +:+ fmt_03d (i + 1));
     "feature" := JStr feature;
     "test_scenario" := JStr ("Test " +:+ feature +:+ " functionality");
     "test_type" := JStr (if decide (i mod 3 ≠ 1)%nat then "positive" else "negative");
     "preconditions" := JStr "Application is loaded";
     "test_steps" := JList [JStr "Navigate to the feature"; JStr "Perform action";
                            JStr "Verify result"];
     "expected_result" := JStr "Feature works as expected";
     "grounded_in" := JList [JStr "documentation"];
     "priority" := JStr "medium" ]}.

(** [len(features) or 3] *)
Definition len_or_3 (features : list string) : Z :=
  let n := Z.of_nat (length features) in
  if n =? 0 then 3 else n.

Definition _create_fallback_test_cases (query context : string) (num_cases : Z)
  : list (gmap string json) :=
  let features := _extract_features_from_context context in
  fallback_case features <$> range (Z.min num_cases (len_or_3 features)).

(** *** [_build_context_string] *)

(** An entry of the list that [RAGService.retrieve_context] returns, as
    [VectorStore.query] builds it: the keys [content] and [metadata] are
    always present, and the metadata values read here are strings. *)
Record context_doc : Type := {
  content : string;
  metadata : gmap string string
}.

Definition context_part (i : nat) (doc : context_doc) : string :=
  let source := default "unknown" (metadata doc !! "source") in
  "[Document " +:+ str_of_nat (i + 1) +:+ " - " +:+ source +:+ "]" +:+ nl
    +:+ content doc +:+ nl.

Definition _build_context_string (context_docs : list context_doc) : string :=
  join nl (imap context_part context_docs).

(** *** [_generate_with_llm] *)

(** [re.sub(r'```json\s*', '', s)]: every occurrence of the opening fence is
    removed together with the white space that follows it. [skip] counts the
    characters of the fence still to be dropped, [ws] tells that the white
    space after a fence is being dropped. *)
Fixpoint sub_fence_json (skip : nat) (ws : bool) (s : string) : string :=
  match s with
  | EmptyString => EmptyString
  | String c s' =>
      match skip with
      | S k => sub_fence_json k true s'
      | O =>
          if ws && is_space c then sub_fence_json 0 true s'
          else if String.prefix "```json" s then sub_fence_json 6 true s'
          else String c (sub_fence_json 0 false s')
      end
  end.

(** [re.sub(r'```\s*$', '', s)]: the first fence that only white space
    separates from the end of the text is removed with that white space. *)
Fixpoint sub_fence_end (s : string) : string :=
  match s with
  | EmptyString => EmptyString
  | String c s' =>
      if String.prefix "```" s && all_space (substring 3 (String.length s) s)
      then EmptyString
      else String c (sub_fence_end s')
  end.

Definition clean_response (response_text : string) : string :=
  strip (sub_fence_end (sub_fence_json 0 false response_text)).

Definition dq : string := String (ascii_of_nat 34) EmptyString.

Definition system_prompt : string :=
  "You are an expert QA engineer and test architect. Your task is to generate comprehensive, professional test cases based on the provided documentation.

CRITICAL REQUIREMENTS:
1. Generate test cases in VALID JSON format (must be parseable)
2. Every test case MUST reference specific source documents
3. NO hallucinations - only use information from provided documents
4. Include positive, negative, and edge test cases
5. Be specific and actionable

Each test case must have this structure:
{
    " +:+ dq +:+ "test_id" +:+ dq +:+ ": " +:+ dq +:+ "TC-XXX" +:+ dq +:+ ",
    " +:+ dq +:+ "feature" +:+ dq +:+ ": " +:+ dq +:+ "Feature name" +:+ dq +:+ ",
    " +:+ dq +:+ "test_scenario" +:+ dq +:+ ": " +:+ dq +:+ "Clear description" +:+ dq +:+ ",
    " +:+ dq +:+ "test_type" +:+ dq +:+ ": " +:+ dq +:+ "positive|negative|edge" +:+ dq +:+ ",
    " +:+ dq +:+ "preconditions" +:+ dq +:+ ": " +:+ dq +:+ "Setup needed" +:+ dq +:+ ",
    " +:+ dq +:+ "test_steps" +:+ dq +:+ ": [" +:+ dq +:+ "Step 1" +:+ dq +:+ ", " +:+ dq +:+ "Step 2" +:+ dq +:+ ", ...],
    " +:+ dq +:+ "expected_result" +:+ dq +:+ ": " +:+ dq +:+ "What should happen" +:+ dq +:+ ",
    " +:+ dq +:+ "grounded_in" +:+ dq +:+ ": [" +:+ dq +:+ "source_file.md" +:+ dq +:+ ", ...],
    " +:+ dq +:+ "priority" +:+ dq +:+ ": " +:+ dq +:+ "high|medium|low" +:+ dq +:+ "
}

Return ONLY a JSON array of test cases, no additional text.".

Definition user_prompt (query context : string) (num_cases : Z) : string :=
  "Based on the following documentation, generate " +:+ pretty num_cases
  +:+ " comprehensive test cases for: " +:+ query +:+ "

DOCUMENTATION:
" +:+ context +:+ "

Generate diverse test cases covering:
- Positive scenarios (happy path)
- Negative scenarios (invalid inputs, errors)
- Edge cases (boundaries, limits)

Return ONLY valid JSON array, no markdown formatting.".

(** The generation capability: system and user message to the content of
    the first choice, or an exception (transport error, timeout, a response
    without content). *)
Variable create_completion : string → string → result string.

(** [json.loads]: a decode error is [Raise JSONDecodeError]. *)
Variable json_loads : string → result json.

(** The statements under the inner [try], up to the [return]. *)
Definition parse_and_validate (response_text : string) (num_cases : Z)
  : result (list (gmap string json)) :=
  parsed ←! json_loads response_text;
  let test_cases := match parsed with JList l => l | v => [v] end in
  for_enumerate _validate_test_case 1 (list_prefix test_cases num_cases).

(** The statements under the outer [try]; the inner [except] handles a
    decode error only. *)
Definition generate_body (query context : string) (num_cases : Z)
  : result (list (gmap string json)) :=
  content ←! create_completion system_prompt (user_prompt query context num_cases);
  let response_text := clean_response (strip content) in
  match parse_and_validate response_text num_cases with
  | Raise JSONDecodeError => Ok (_create_fallback_test_cases query context num_cases)
  | r => r
  end.

(** [_generate_with_llm]: [except Exception] turns every exception of the
    body into the fallback. *)
Definition _generate_with_llm (query context : string) (num_cases : Z)
  : list (gmap string json) :=
  match generate_body query context num_cases with
  | Ok validated_cases => validated_cases
  | Raise _ => _create_fallback_test_cases query context num_cases
  end.

(** *** [generate_test_cases] *)

(** [RAGService.retrieve_context(query, k)]; an error of the vector store is
    raised to the caller. *)
Variable retrieve_context : string → Z → result (list context_doc).

Definition generate_test_cases (query : string) (num_cases : Z)
  : result (list (gmap string json)) :=
  context_docs ←! retrieve_context query 5;
  let context_str := _build_context_string context_docs in
  Ok (_generate_with_llm query context_str num_cases).

End Generator.

End TestCaseGenerator.

(** ** The vector store: [services/vector_store.py] *)

Module VectorStore.
Import PyStr Chunking.

(** A parsed document, as [DocumentParser] hands it over. *)
Record document : Type := {
  content : string;
  source : string;
  type : string
}.

Record chunk_metadata : Type := {
  md_source : string;
  md_type : string;
  chunk_index : nat;
  total_chunks : nat
}.

(** The two settings that [build_from_documents] reads. *)
Record settings : Type := {
  CHUNK_SIZE : Z;
  CHUNK_OVERLAP : Z
}.

Definition default_settings : settings :=
  {| CHUNK_SIZE := 1000; CHUNK_OVERLAP := 200 |}.

(** The arguments of the call [self.collection.add(...)]. *)
Record add_call (E : Type) : Type := {
  ids : list string;
  embeddings : list E;
  documents : list string;
  metadatas : list chunk_metadata
}.
Arguments ids {E} _.
Arguments embeddings {E} _.
Arguments documents {E} _.
Arguments metadatas {E} _.

Section Build.

(** [EmbeddingService.generate_embeddings], with [E] the type of an
    embedding vector, and [self.collection.add] on the collection as it is
    when the call is made. Both belong to libraries and may raise. *)
Context {E : Type}.
Variable generate_embeddings : list string → result (list E).
Variable collection_add : add_call E → result unit.

Variable fuel : nat.
Variable cfg : settings.

(** The body of [for doc in documents]: the chunks of one document with
    their metadata. *)
Definition chunks_of (doc : document) : option (list (string * chunk_metadata)) :=
  chunks ← chunk_text fuel (content doc) (CHUNK_SIZE cfg) (CHUNK_OVERLAP cfg);
  Some (imap (λ i chunk,
               (chunk, {| md_source := source doc; md_type := type doc;
                          chunk_index := i; total_chunks := length chunks |}))
             chunks).

Fixpoint all_chunks_of (docs : list document) : option (list (string * chunk_metadata)) :=
  match docs with
  | [] => Some []
  | doc :: docs' =>
      cs ← chunks_of doc;
      rest ← all_chunks_of docs';
      Some (cs ++ rest)
  end.

(** [[f"doc_{i}" for i in range(n)]] *)
Definition make_ids (n : nat) : list string :=
  (λ i, "doc_" +:+ str_of_nat i) <$> seq 0 n.

(** [build_from_documents]: [None] when the chunker does not return;
    otherwise the exception that the embedding service or the collection
    raised, or the call made on the collection with the value returned. *)
Definition build_from_documents (docs : list document)
  : option (result (add_call E * Z)) :=
  all ← all_chunks_of docs;
  let all_chunks := all.*1 in
  let all_metadata := all.*2 in
  Some (embeddings ←! generate_embeddings all_chunks;
        let call := {| ids := make_ids (length all_chunks);
                       embeddings := embeddings;
                       documents := all_chunks;
                       metadatas := all_metadata |} in
        _ ←! collection_add call;
        Ok (call, Z.of_nat (length all_chunks))).

(** The ids that one call of [build_from_documents] assigns. *)
Definition assigned_ids (docs : list document) : option (result (list string)) :=
  r ← build_from_documents docs; Some (p ←! r; Ok (ids p.1)).

End Build.

End VectorStore.

(** ** The selector table: [services/script_generator.py] *)

Module ScriptGenerator.
Import PyStr.

(** The parse tree that [BeautifulSoup(html_content, 'html.parser')]
    returns. A string of the tree is a [NavigableString], a [CData]
    section, or an object of one of the other string classes of the
    library: [Comment], [Declaration], [Doctype], [ProcessingInstruction],
    and [Script], [Stylesheet], [TemplateString], [RubyTextString],
    [RubyParenthesisString] for the text inside the tags of these kinds.
    The parser gives every attribute a string value, except the
    multi-valued ones, which are lists; of those only [class] is read. *)
Inductive node : Type :=
  | NavigableString (s : string)
  | CData (s : string)
  | OtherString (s : string)
  | Tag (name : string) (attrs : gmap string string)
        (class_ : option (list string)) (children : list node).

(** The strings below a node that [get_text] reads, in document order: for
    an element other than [script], [style], [template], [rt] and [rp],
    those whose class is exactly [NavigableString] or [CData]. Comments
    and the text of scripts and style sheets are passed over. *)
Fixpoint strings (n : node) : list string :=
  match n with
  | NavigableString s => [s]
  | CData s => [s]
  | OtherString _ => []
  | Tag _ _ _ children => List.flat_map strings children
  end.

(** [element.get_text(strip=True)], for an element of one of the five
    interactive kinds: every string stripped, the empty ones dropped, the
    rest concatenated. *)
Definition get_text_strip (n : node) : string :=
  String.concat EmptyString
    (filter (λ s, truthy s = true) (strip <$> strings n)).

(** All tags at or below a node, in document order. *)
Fixpoint tags_of (n : node) : list node :=
  match n with
  | Tag _ _ _ children => n :: List.flat_map tags_of children
  | _ => []
  end.

Definition tag_name (n : node) : string :=
  match n with
  | Tag name _ _ _ => name
  | _ => EmptyString
  end.

(** [soup.find_all(names)] *)
Definition find_all (names : list string) (soup : list node) : list node :=
  filter (λ n, tag_name n ∈ names) (List.flat_map tags_of soup).

Record element_info : Type := {
  tag : string;
  id : option string;
  name : option string;
  class : list string;
  type : option string;
  text : option string;
  placeholder : option string;
  value : option string
}.

Definition info_of (element : node) : element_info :=
  match element with
  | Tag nm attrs cls _ =>
      {| tag := nm;
         id := attrs !! "id";
         name := attrs !! "name";
         class := default [] cls;
         type := attrs !! "type";
         text := if decide (nm ≠ "input") then Some (get_text_strip element) else None;
         placeholder := attrs !! "placeholder";
         value := attrs !! "value" |}
  | _ =>
      {| tag := EmptyString; id := None; name := None; class := [];
         type := None; text := None; placeholder := None; value := None |}
  end.

(** Truth value of an optional string: [None] and the empty string are
    false. *)
Definition truthy_opt (o : option string) : bool :=
  match o with
  | Some s => truthy s
  | None => false
  end.

(** The [if / elif / elif] chain: the key of an element, if it gets one. *)
Definition selector_key (info : element_info) : option string :=
  if truthy_opt (id info) then
    Some ("#" +:+ default EmptyString (id info))
  else if truthy_opt (name info) then
    Some ("[name='" +:+ default EmptyString (name info) +:+ "']")
  else if truthy_opt (text info) then
    Some (tag info +:+ ":contains('"
          +:+ prefix_of_len 30 (default EmptyString (text info)) +:+ "')")
  else None.

(** The body of the loop: [selectors[key] = element_info] *)
Definition add_selector (selectors : gmap string element_info) (element : node)
  : gmap string element_info :=
  let info := info_of element in
  match selector_key info with
  | Some key => <[key := info]> selectors
  | None => selectors
  end.

Definition interactive : list string :=
  ["input"; "button"; "select"; "textarea"; "a"].

(** [_extract_selectors], from the parse tree on. *)
Definition _extract_selectors (soup : list node) : gmap string element_info :=
  foldl add_selector ∅ (find_all interactive soup).

End ScriptGenerator.

(** ** Vocabulary of the specification *)

Module Spec.
Import PyStr TestCaseGenerator.

(** The keys of a normalized test case, in the order of the source. *)
Definition required_fields : list string :=
  ["test_id"; "feature"; "test_scenario"; "test_type"; "preconditions";
   "test_steps"; "expected_result"; "grounded_in"; "priority"].

(** The two fields that must hold a list. *)
Definition list_fields : list string := ["test_steps"; "grounded_in"].

(** The table of defaults, read off [_validate_test_case]. *)
Definition field_default (index : nat) (key : string) : option json :=
  if decide (key = "test_id") then Some (JStr ("TC-" +:+ fmt_03d index))
  else if decide (key = "feature") then Some (JStr "Unknown Feature")
  else if decide (key = "test_scenario") then Some (JStr "Test scenario")
  else if decide (key = "test_type") then Some (JStr "positive")
  else if decide (key = "preconditions") then Some (JStr "None")
  else if decide (key = "test_steps") then Some (JList [JStr "Execute test"])
  else if decide (key = "expected_result") then Some (JStr "Test passes")
  else if decide (key = "grounded_in") then Some (JList [JStr "documentation"])
  else if decide (key = "priority") then Some (JStr "medium")
  else None.

Definition is_list (v : json) : bool :=
  match v with JList _ => true | _ => false end.

(** What validation makes of the field [key] of [tc], given its default: a
    missing field becomes the default, a list field that holds no list
    becomes the default, any other value is kept. *)
Definition repaired (tc : gmap string json) (key : string) (dflt : json) : json :=
  match tc !! key with
  | None => dflt
  | Some v =>
      if bool_decide (key ∈ list_fields) && negb (is_list v) then dflt else v
  end.

(** A record as validation leaves it: exactly the required keys, and lists
    in the list fields. *)
Definition is_normalized (tc : gmap string json) : bool :=
  bool_decide (dom tc = list_to_set required_fields)
  && forallb (λ key, from_option is_list false (tc !! key)) list_fields.

(** The type each field has in the [TestCase] model of the service: a list
    of strings in the list fields, a string elsewhere. *)
Definition well_typed_field (key : string) (v : json) : bool :=
  if bool_decide (key ∈ list_fields)
  then match v with
       | JList l => forallb (λ x, match x with JStr _ => true | _ => false end) l
       | _ => false
       end
  else match v with JStr _ => true | _ => false end.

(** The values the schema documents for the two enumerated fields. *)
Definition enums : list (string * list string) :=
  [("test_type", ["positive"; "negative"; "edge"]);
   ("priority", ["high"; "medium"; "low"])].

(** A text for the default settings (chunks of 1000 with an overlap of
    200): a first sentence of 199 characters, then 1000 characters without
    a sentence end. *)
Definition long_first_sentence : string :=
  string_of_list_ascii (replicate 198 "x"%char) +:+ ". "
  +:+ string_of_list_ascii (replicate 1000 "y"%char).

(** A field that is filled in: a non-empty string, or in a list field a
    non-empty list of non-empty strings. *)
Definition filled_str (v : json) : bool :=
  match v with JStr s => truthy s | _ => false end.

Definition filled (key : string) (v : json) : bool :=
  if bool_decide (key ∈ list_fields)
  then match v with
       | JList (x :: l) => forallb filled_str (x :: l)
       | _ => false
       end
  else filled_str v.

(** A well-formed test case: every required field is present, has the type
    of the [TestCase] model and is filled in. *)
Definition well_formed (tc : gmap string json) : bool :=
  forallb (λ key, from_option (λ v, well_typed_field key v && filled key v)
                              false (tc !! key))
          required_fields.

(** Two iteration orders that a hash table of strings can have: the order
    of insertion, and its reverse. *)
Definition insertion_order : set_order :=
  {| list_of_set := remove_dups;
     list_of_set_perm := λ l, Permutation_refl (remove_dups l) |}.

Definition reverse_order : set_order :=
  {| list_of_set := λ l, reverse (remove_dups l);
     list_of_set_perm := λ l, reverse_Permutation (remove_dups l) |}.

(** The fields of a fallback record that do not mention the feature. *)
Definition feature_free_fields : list string :=
  ["test_id"; "test_type"; "preconditions"; "test_steps"; "expected_result";
   "grounded_in"; "priority"].

(** A value that counts in the choice of a key: an absent or empty one
    does not. *)
Definition present (o : option string) : option string :=
  match o with
  | Some s => if PyStr.truthy s then Some s else None
  | None => None
  end.

(** The markup of the two scenarios, as parse trees: an input with an id
    and a button; two buttons whose texts agree on the first 30 characters. *)
Definition email_and_submit : list ScriptGenerator.node :=
  [ ScriptGenerator.Tag "input" {[ "id" := "email" ]} None [];
    ScriptGenerator.Tag "button" ∅ None [ScriptGenerator.NavigableString "Submit"] ].

Definition two_long_buttons : list ScriptGenerator.node :=
  [ ScriptGenerator.Tag "button" {[ "type" := "button" ]} None
      [ScriptGenerator.NavigableString "Add the selected item to the cart now"];
    ScriptGenerator.Tag "button" {[ "type" := "submit" ]} None
      [ScriptGenerator.NavigableString "Add the selected item to the cart later"] ].

(** The elements that get the selector key [key]. *)
Definition keyed (key : string) (elements : list ScriptGenerator.node)
  : list ScriptGenerator.node :=
  filter (λ element,
            ScriptGenerator.selector_key (ScriptGenerator.info_of element) = Some key)
         elements.

(** [element] occurs in the document: at its top level, or at any depth
    below one of its tags. *)
Inductive occurs (element : ScriptGenerator.node)
  : list ScriptGenerator.node → Prop :=
  | occurs_here (soup : list ScriptGenerator.node) :
      element ∈ soup → occurs element soup
  | occurs_below (soup : list ScriptGenerator.node) (nm : string)
      (attrs : gmap string string) (cls : option (list string))
      (children : list ScriptGenerator.node) :
      ScriptGenerator.Tag nm attrs cls children ∈ soup →
      occurs element children → occurs element soup.

(** The key of an element read off its attributes, in the words of the
    specification: the [id] attribute, else the [name] attribute, else the
    first 30 characters of the visible text under the tag name. An [input]
    has no visible text. *)
Definition visible_text (nm : string) (element : ScriptGenerator.node)
  : option string :=
  if decide (nm = "input") then None
  else Some (ScriptGenerator.get_text_strip element).

Definition key_of_element (nm : string) (attrs : gmap string string)
  (element : ScriptGenerator.node) : option string :=
  match present (attrs !! "id") with
  | Some i => Some ("#" +:+ i)
  | None =>
      match present (attrs !! "name") with
      | Some n => Some ("[name='" +:+ n +:+ "']")
      | None =>
          match present (visible_text nm element) with
          | Some t => Some (nm +:+ ":contains('" +:+ PyStr.prefix_of_len 30 t +:+ "')")
          | None => None
          end
      end
  end.

(** Two elements without id and name that show the same text under
    different tags, and two buttons that show no text. *)
Definition go_button_and_link : list ScriptGenerator.node :=
  [ ScriptGenerator.Tag "button" ∅ None [ScriptGenerator.NavigableString "Go"];
    ScriptGenerator.Tag "a" ∅ None [ScriptGenerator.NavigableString "Go"] ].

Definition two_empty_buttons : list ScriptGenerator.node :=
  [ ScriptGenerator.Tag "button" ∅ None [];
    ScriptGenerator.Tag "button" ∅ None [] ].

(** Stand-ins for the two libraries of the vector store: an embedding
    service that returns one vector for each chunk, and a collection that
    refuses an empty list of ids, as [chromadb] does, and accepts every
    other call. *)
Definition one_vector_each (chunks : list string) : result (list (list Z)) :=
  Ok ((λ _, [0]) <$> chunks).

(** The call that a build makes for documents of one chunk each. *)
Definition short_call {E : Type} (docs : list VectorStore.document)
  (embs : list E) : VectorStore.add_call E :=
  {| VectorStore.ids := VectorStore.make_ids (length docs);
     VectorStore.embeddings := embs;
     VectorStore.documents := VectorStore.content <$> docs;
     VectorStore.metadatas :=
       (λ doc, {| VectorStore.md_source := VectorStore.source doc;
                  VectorStore.md_type := VectorStore.type doc;
                  VectorStore.chunk_index := 0;
                  VectorStore.total_chunks := 1 |}) <$> docs |}.

Definition refuse_empty (call : VectorStore.add_call (list Z)) : result unit :=
  match VectorStore.ids call with
  | [] => Raise (OtherError "ValueError")
  | _ => Ok tt
  end.

End Spec.

(** ** Vocabulary for the further properties *)

Module Shape.
Import PyStr.

(** The first, respectively last, character of a string is white space. *)
Definition head_is_space (s : string) : bool :=
  match s with
  | EmptyString => false
  | String c _ => is_space c
  end.

Fixpoint last_is_space (s : string) : bool :=
  match s with
  | EmptyString => false
  | String c EmptyString => is_space c
  | String _ s' => last_is_space s'
  end.

(** A chunk as the loop of the chunker appends it: not empty, and with no
    white space at either end. *)
Definition trimmed_nonempty (s : string) : Prop :=
  s ≠ EmptyString ∧ head_is_space s = false ∧ last_is_space s = false.

End Shape.

(** ** More of [services/script_generator.py] *)

Module SelectorsUsed.
Import PyStr ScriptGenerator.

(** [d[key] = v] on the items of a [dict], kept in insertion order: a key
    that is present keeps its place and takes the new value, a new key goes
    to the end. *)
Fixpoint dict_set {V : Type} (items : list (string * V)) (key : string) (v : V)
  : list (string * V) :=
  match items with
  | [] => [(key, v)]
  | (k, w) :: items' =>
      if decide (k = key) then (key, v) :: items'
      else (k, w) :: dict_set items' key v
  end.

(** The loop of [_extract_selectors] on the items of [selectors]. *)
Definition add_selector_item (items : list (string * element_info))
  (element : node) : list (string * element_info) :=
  let info := info_of element in
  match selector_key info with
  | Some key => dict_set items key info
  | None => items
  end.

(** [list(_extract_selectors(html).items())] *)
Definition selector_items (soup : list node) : list (string * element_info) :=
  foldl add_selector_item [] (find_all interactive soup).

(** [s.replace(old, new)] for two single characters *)
Fixpoint replace_char (old new : ascii) (s : string) : string :=
  match s with
  | EmptyString => EmptyString
  | String c s' =>
      String (if decide (c = old) then new else c) (replace_char old new s')
  end.

Definition single_quote : ascii := ascii_of_nat 39.
Definition double_quote : ascii := ascii_of_nat 34.

(** The test in the loop of [_extract_used_selectors] *)
Definition selector_used (script selector : string) : bool :=
  contains (replace_char single_quote double_quote selector) script
  || contains (replace_char double_quote single_quote selector) script.

(** [_extract_used_selectors(script, selectors)], on the items of
    [selectors] *)
Definition _extract_used_selectors (script : string)
  (selectors : list (string * element_info)) : list string :=
  filter (λ selector, selector_used script selector = true) selectors.*1.

(** No double quote occurs in [s]. *)
Fixpoint no_double_quote (s : string) : bool :=
  match s with
  | EmptyString => true
  | String c s' => negb (bool_decide (c = double_quote)) && no_double_quote s'
  end.

End SelectorsUsed.

(** ** The validators: [utils/validators.py] *)

Module Validators.
Import PyStr.

Definition dot : ascii := ascii_of_nat 46.

(** [s.split(sep)] for a separator of one character *)
Fixpoint split (sep : ascii) (s : string) : list string :=
  match s with
  | EmptyString => [EmptyString]
  | String c s' =>
      if decide (c = sep) then EmptyString :: split sep s'
      else match split sep s' with
           | seg :: segs => String c seg :: segs
           | [] => [String c EmptyString]
           end
  end.

(** [validate_file_extension(filename, allowed_extensions)]; [split] never
    returns the empty list, so [[-1]] always finds an element. *)
Definition validate_file_extension (filename : string)
  (allowed_extensions : list string) : bool :=
  let ext := default EmptyString (last (split dot (lower filename))) in
  bool_decide (String dot ext ∈ allowed_extensions).

(** [\w] in a pattern over [str], for a code point below 256: the ASCII
    letters, digits and underscore, and the Latin-1 letters and numeric
    signs. *)
Definition is_word (c : ascii) : bool :=
  let n := nat_of_ascii c in
  (((48 <=? n) && (n <=? 57)) || ((65 <=? n) && (n <=? 90)) || (n =? 95)
   || ((97 <=? n) && (n <=? 122))
   || (n =? 170) || (n =? 178) || (n =? 179) || (n =? 181) || (n =? 185)
   || (n =? 186) || ((188 <=? n) && (n <=? 190))
   || ((192 <=? n) && (n <=? 214)) || ((216 <=? n) && (n <=? 246))
   || (248 <=? n))%nat.

(** The characters that the class [[^\w\s.-]] does not match. *)
Definition kept (c : ascii) : bool :=
  is_word c || is_space c || bool_decide (c = dot)
  || bool_decide (c = ascii_of_nat 45).

(** [sanitize_filename(filename)]: [re.sub(r'[^\w\s.-]', '', filename)] *)
Fixpoint sanitize_filename (filename : string) : string :=
  match filename with
  | EmptyString => EmptyString
  | String c s' =>
      if kept c then String c (sanitize_filename s') else sanitize_filename s'
  end.

(** No dot occurs in [s]. *)
Fixpoint no_dot (s : string) : bool :=
  match s with
  | EmptyString => true
  | String c s' => negb (bool_decide (c = dot)) && no_dot s'
  end.

(** Every character of [s] satisfies [p]. *)
Fixpoint all_chars (p : ascii → bool) (s : string) : bool :=
  match s with
  | EmptyString => true
  | String c s' => p c && all_chars p s'
  end.

(** [s.isascii()] *)
Definition isascii (s : string) : bool :=
  all_chars (λ c, (nat_of_ascii c <? 128)%nat) s.

End Validators.

(** ** Vocabulary for the cleaning of a response *)

Module Fences.
Import PyStr.

Definition backtick : ascii := ascii_of_nat 96.

(** No backtick occurs in [s]. *)
Fixpoint no_backtick (s : string) : bool :=
  match s with
  | EmptyString => true
  | String c s' => negb (bool_decide (c = backtick)) && no_backtick s'
  end.

(** The opening fence [```json] starts nowhere in [s]. *)
Fixpoint no_json_fence (s : string) : bool :=
  match s with
  | EmptyString => true
  | String _ s' => negb (String.prefix "```json" s) && no_json_fence s'
  end.

(** A response wrapped in a code fence, as a model often sends it. *)
Definition fenced (body : string) : string :=
  "```json" +:+ nl +:+ body +:+ nl +:+ "```".

End Fences.

(** ** The structure of a page: [services/document_parser.py] *)

Module DocumentParser.
Import PyStr ScriptGenerator.

Record html_element : Type := {
  el_tag : string;
  el_id : option string;
  el_name : option string;
  el_type : option string;
  el_class : option (list string)
}.

Record html_form : Type := {
  form_id : option string;
  form_action : option string;
  form_method : option string
}.

Record html_info : Type := {
  elements : list html_element;
  forms : list html_form;
  title : option string
}.

(** The dictionary appended for [element] in the loop over [tag]. *)
Definition element_of (tag : string) (element : node) : html_element :=
  match element with
  | Tag _ attrs cls _ =>
      {| el_tag := tag; el_id := attrs !! "id"; el_name := attrs !! "name";
         el_type := attrs !! "type"; el_class := cls |}
  | _ =>
      {| el_tag := tag; el_id := None; el_name := None; el_type := None;
         el_class := None |}
  end.

Definition form_of (form : node) : html_form :=
  match form with
  | Tag _ attrs _ _ =>
      {| form_id := attrs !! "id"; form_action := attrs !! "action";
         form_method := attrs !! "method" |}
  | _ =>
      {| form_id := None; form_action := None; form_method := None |}
  end.

(** [element.string]: the text of a node whose only content, at every
    level, is one node down to a string, of whatever class. *)
Fixpoint string_of (n : node) : option string :=
  match n with
  | NavigableString s | CData s | OtherString s => Some s
  | Tag _ _ _ [child] => string_of child
  | Tag _ _ _ _ => None
  end.

Definition structural : list string := ["input"; "button"; "select"; "textarea"].

(** [parse_html], from the parse tree on. [soup.title] is the first
    [title] tag of the document. *)
Definition parse_html (soup : list node) : html_info :=
  {| elements :=
       List.flat_map (λ tag, element_of tag <$> find_all [tag] soup) structural;
     forms := form_of <$> find_all ["form"] soup;
     title := head (find_all ["title"] soup) ≫= string_of |}.

End DocumentParser.

(** * Properties *)

(** ** The chunker *)

Module ChunkingProofs.
Import PyStr Chunking.

Lemma truthy_nonempty (s : string) : truthy s = true ↔ s ≠ EmptyString.
Proof. destruct s; simpl; split; congruence. Qed.

(** A short text is returned as it is, as the only chunk. *)
Lemma chunk_text_short (fuel : nat) (text : string) (chunk_size overlap : Z) :
  len text <= chunk_size →
  chunk_text fuel text chunk_size overlap = Some [text].
Proof.
  intros Hle. unfold chunk_text.
  destruct (Z.leb_spec (len text) chunk_size); [done | lia].
Qed.

(** What the loop appends is never the empty string. *)
Lemma chunk_loop_nonempty (fuel : nat) (text : string) (chunk_size overlap : Z) :
  ∀ start chunks result,
    Forall (λ c, c ≠ EmptyString) chunks →
    chunk_loop fuel text chunk_size overlap start chunks = Some result →
    Forall (λ c, c ≠ EmptyString) result.
Proof.
  induction fuel as [|fuel IH]; intros start chunks result Hall;
    cbn [chunk_loop]; [done|].
  destruct (start <? len text); [|by intros [= <-]].
  unfold chunk_step.
  destruct (truthy _) eqn:Ht; apply IH; [|done].
  apply Forall_app; split; [done|].
  apply Forall_singleton. by apply truthy_nonempty.
Qed.

(** When an iteration inside the text leaves [start] where it was, every
    later iteration does the same: no amount of fuel lets the loop end. *)
Lemma chunk_loop_stuck (text : string) (chunk_size overlap start : Z) :
  start < len text →
  (chunk_step text chunk_size overlap start).1 = start →
  ∀ fuel chunks, chunk_loop fuel text chunk_size overlap start chunks = None.
Proof.
  intros Hlt Hfix fuel.
  induction fuel as [|fuel IH]; intros chunks; cbn [chunk_loop]; [done|].
  destruct (Z.ltb_spec start (len text)); [|lia].
  destruct (chunk_step text chunk_size overlap start) as [start' chunk] eqn:Hstep.
  simpl in Hfix. subst start'. apply IH.
Qed.

(** The same, one iteration later. *)
Lemma chunk_loop_stuck_after (text : string) (chunk_size overlap start : Z) :
  start < len text →
  let start' := (chunk_step text chunk_size overlap start).1 in
  start' < len text →
  (chunk_step text chunk_size overlap start').1 = start' →
  ∀ fuel chunks, chunk_loop fuel text chunk_size overlap start chunks = None.
Proof.
  intros Hlt start' Hlt' Hfix fuel chunks.
  destruct fuel as [|fuel]; cbn [chunk_loop]; [done|].
  destruct (Z.ltb_spec start (len text)); [|lia].
  destruct (chunk_step text chunk_size overlap start) as [s1 chunk] eqn:Hstep.
  simpl in start'. subst start'. by apply chunk_loop_stuck.
Qed.

(** C2 (the code departs from the claim). The text [". aaaaaaaaaaaa"] is
    longer than [max_size = 10] and [overlap = 2] is below [max_size], yet
    [chunk_text] does not return: the window is cut after the delimiter at
    position 0, so [end = 2], the chunk ["."] is appended and [start] is set
    back to [end - overlap = 0]; whatever the fuel, the loop never ends. *)
Theorem chunk_text_does_not_terminate :
  len ". aaaaaaaaaaaa" > 10 ∧ 2 < 10 ∧
  chunk_step ". aaaaaaaaaaaa" 10 2 0 = (0, Some ".") ∧
  ∀ fuel, chunk_text fuel ". aaaaaaaaaaaa" 10 2 = None.
Proof.
  split; [by vm_compute|]. split; [lia|]. split; [by vm_compute|].
  intros fuel. unfold chunk_text.
  replace (len ". aaaaaaaaaaaa" <=? 10) with false by by vm_compute.
  apply chunk_loop_stuck; by vm_compute.
Qed.

(** The same defect on ordinary prose: after the first sentence is cut off,
    the next window ends inside the second sentence and is cut at the same
    place again. *)
Lemma chunk_text_prose_does_not_terminate :
  ∀ fuel,
    chunk_text fuel "Hello world. This is a test. And more text here ok." 20 5
    = None.
Proof.
  intros fuel. unfold chunk_text.
  replace (len _ <=? 20) with false by by vm_compute.
  apply chunk_loop_stuck_after; by vm_compute.
Qed.

(** With the default settings too: the first sentence is exactly as long
    as the overlap, so the cut after it sends [start] back to 0. *)
Lemma chunk_text_default_settings_does_not_terminate :
  len Spec.long_first_sentence = 1200
  ∧ ∀ fuel, chunk_text fuel Spec.long_first_sentence 1000 200 = None.
Proof.
  split; [by vm_compute|].
  intros fuel. unfold chunk_text.
  replace (len _ <=? 1000) with false by by vm_compute.
  apply chunk_loop_stuck; by vm_compute.
Qed.

(** C3 (the code departs from the claim). For a text no longer than
    [max_size] the single chunk returned is the input itself, white space
    included: [" a"] comes back as [" a"], not as its trimmed form ["a"]. *)
Theorem chunk_text_short_not_trimmed :
  len " a" <= 1000 ∧
  (∀ fuel, chunk_text fuel " a" 1000 200 = Some [" a"]) ∧
  strip " a" = "a" ∧
  (∀ fuel, chunk_text fuel " a" 1000 200 ≠ Some [strip " a"]).
Proof.
  split; [by vm_compute|]. split; [done|]. split; [done|].
  intros fuel. by vm_compute.
Qed.

End ChunkingProofs.

(** ** Validation of test cases *)

Module ValidationProofs.
Import PyStr TestCaseGenerator Spec.

Lemma get_list_repaired (tc : gmap string json) (key : string) (dflt : json) :
  key ∈ list_fields → get_list tc key dflt = repaired tc key dflt.
Proof.
  intros Hk. unfold get_list, repaired, get.
  rewrite (bool_decide_eq_true_2 _ Hk).
  destruct (tc !! key) as [[]|]; done.
Qed.

Lemma get_repaired (tc : gmap string json) (key : string) (dflt : json) :
  key ∉ list_fields → get tc key dflt = repaired tc key dflt.
Proof.
  intros Hk. unfold repaired, get.
  rewrite (bool_decide_eq_false_2 _ Hk).
  destruct (tc !! key); done.
Qed.

Ltac split_key key :=
  repeat match goal with
  | |- context [decide (key = ?s)] =>
      destruct (decide (key = s)); [subst key|]
  end.

(** Every lookup in a validated record, by the table of defaults. *)
Lemma validate_dict_lookup (tc : gmap string json) (index : nat) (key : string) :
  validate_dict tc index !! key = repaired tc key <$> field_default index key.
Proof.
  unfold validate_dict, field_default. split_key key; simplify_map_eq;
    first [ by rewrite get_list_repaired by compute_done
          | by rewrite get_repaired by compute_done
          | done ].
Qed.

Lemma field_default_required (index : nat) (key : string) :
  is_Some (field_default index key) ↔ key ∈ required_fields.
Proof.
  unfold field_default. split_key key.
  1-9: split; [intros _; compute_done | by eexists].
  split; [by intros [? ?]|]. unfold required_fields.
  rewrite !elem_of_cons, elem_of_nil.
  intros Hin. repeat (destruct Hin as [Hin|Hin]; [congruence|]). done.
Qed.

Lemma validate_dict_dom (tc : gmap string json) (index : nat) :
  dom (validate_dict tc index) = list_to_set required_fields.
Proof.
  apply set_eq. intros key.
  rewrite elem_of_dom, validate_dict_lookup, fmap_is_Some, field_default_required.
  set_solver.
Qed.

Lemma validate_dict_is_normalized (tc : gmap string json) (index : nat) :
  is_normalized (validate_dict tc index) = true.
Proof.
  unfold is_normalized. rewrite validate_dict_dom, bool_decide_eq_true_2 by done.
  simpl. rewrite !validate_dict_lookup. simpl. unfold repaired.
  destruct (tc !! "test_steps") as [[]|], (tc !! "grounded_in") as [[]|]; done.
Qed.

Lemma list_prefix_nat {A : Type} (l : list A) (n : nat) :
  list_prefix l (Z.of_nat n) = take n l.
Proof.
  unfold list_prefix, adjust_index.
  destruct (Z.ltb_spec (Z.of_nat n) 0); [lia|].
  destruct (decide (n ≤ length l)%nat).
  - f_equal. lia.
  - rewrite !take_ge; [done | lia | lia].
Qed.

Lemma for_enumerate_dicts (tcs : list (gmap string json)) (start : nat) :
  for_enumerate _validate_test_case start (JDict <$> tcs)
  = Ok (imap (λ i tc, validate_dict tc (start + i)) tcs).
Proof.
  revert start. induction tcs as [|tc tcs IH]; intros start; simpl; [done|].
  rewrite IH. simpl. rewrite Nat.add_0_r. do 2 f_equal.
  apply imap_ext. intros i x _. simpl. f_equal. lia.
Qed.

(** C5, as the claim states it, fails: a [priority] that is present but is
    the number 5, not a string, is kept; it is not replaced by the default
    ["medium"]. *)
Lemma validation_keeps_wrong_typed_scalar :
  well_typed_field "priority" (JInt 5) = false ∧
  _validate_test_case (JDict {[ "priority" := JInt 5 ]}) 1
    = Ok (validate_dict {[ "priority" := JInt 5 ]} 1) ∧
  validate_dict {[ "priority" := JInt 5 ]} 1 !! "priority" = Some (JInt 5) ∧
  validate_dict {[ "priority" := JInt 5 ]} 1 !! "priority" ≠ Some (JStr "medium").
Proof. repeat split; by vm_compute. Qed.

(** C5, amended. Of a parsed list of objects, validation normalizes the
    first [requested_count] entries, all of them if there are fewer, and
    rejects none: entry number [i], counted from 1, becomes
    [validate_dict] of it with index [i]. A normalized record has exactly
    the nine required fields; a field that was missing holds its default
    ([TC-] and the index on three digits for [test_id], [["Execute test"]]
    for [test_steps], ["medium"] for [priority]); [test_steps] and
    [grounded_in] also hold their default when the value present was not a
    list; every other value present is kept as it is, whatever its type. *)
Theorem validation_normalizes_first_entries
  (tcs : list (gmap string json)) (requested_count : nat) :
  for_enumerate _validate_test_case 1
    (list_prefix (JDict <$> tcs) (Z.of_nat requested_count))
  = Ok (imap (λ i tc, validate_dict tc (S i)) (take requested_count tcs))
  ∧ (∀ tc index,
       dom (validate_dict tc index) = list_to_set required_fields
       ∧ (∀ key, validate_dict tc index !! key
                 = repaired tc key <$> field_default index key)
       ∧ field_default index "test_id" = Some (JStr ("TC-" +:+ fmt_03d index))
       ∧ field_default index "test_steps" = Some (JList [JStr "Execute test"])
       ∧ field_default index "priority" = Some (JStr "medium"))
  ∧ fmt_03d 7 = "007".
Proof.
  split; [|split; [|done]].
  - rewrite list_prefix_nat, <- fmap_take. apply for_enumerate_dicts.
  - intros tc index. split; [apply validate_dict_dom|].
    split; [apply validate_dict_lookup|done].
Qed.

(** C8. Validation is idempotent: a record that is already normalized
    (exactly the nine required fields, lists in [test_steps] and
    [grounded_in]) is returned unchanged, whatever the index; and every
    record that validation returns is normalized in this sense. *)
Theorem validation_idempotent (tc : gmap string json) (index : nat) :
  is_normalized tc = true →
  validate_dict tc index = tc
  ∧ _validate_test_case (JDict tc) index = Ok tc
  ∧ ∀ raw i, is_normalized (validate_dict raw i) = true.
Proof.
  intros Hnorm.
  assert (validate_dict tc index = tc) as Heq.
  2: { split; [done|]. split; [simpl; by rewrite Heq|].
       apply validate_dict_is_normalized. }
  unfold is_normalized in Hnorm.
  apply andb_true_iff in Hnorm as [Hdom Hlists].
  apply bool_decide_eq_true_1 in Hdom.
  simpl in Hlists. rewrite !andb_true_iff in Hlists.
  destruct Hlists as (Hsteps & Hgrounded & _).
  apply map_eq. intros key. rewrite validate_dict_lookup.
  destruct (field_default index key) as [dflt|] eqn:Hdflt; simpl.
  - assert (key ∈ dom tc) as Hin.
    { rewrite Hdom, elem_of_list_to_set.
      apply (field_default_required index). by eexists. }
    apply elem_of_dom in Hin as [v Hv]. unfold repaired. rewrite Hv.
    case_bool_decide as Hlist; [|done].
    unfold list_fields in Hlist.
    rewrite !elem_of_cons, elem_of_nil in Hlist.
    destruct Hlist as [->|[->|[]]].
    + rewrite Hv in Hsteps. simpl in Hsteps. by rewrite Hsteps.
    + rewrite Hv in Hgrounded. simpl in Hgrounded. by rewrite Hgrounded.
  - symmetry. apply not_elem_of_dom. rewrite Hdom, elem_of_list_to_set.
    intros Hin. apply (field_default_required index) in Hin as [? Hin].
    congruence.
Qed.

Lemma validation_idempotent_witness :
  validate_dict (validate_dict {[ "feature" := JStr "Cart" ]} 2) 2
  = validate_dict {[ "feature" := JStr "Cart" ]} 2.
Proof.
  apply (validation_idempotent (validate_dict {[ "feature" := JStr "Cart" ]} 2) 2).
  vm_compute. reflexivity.
Defined.

(** C10. Validation does not check the enumerated fields: a [test_type] or
    a [priority] that is present as a string outside its documented values
    is kept as it is in the normalized record, not replaced by the
    default. *)
Theorem validation_keeps_out_of_enum_values
  (tc : gmap string json) (index : nat) (key value : string)
  (allowed : list string) :
  (key, allowed) ∈ enums →
  tc !! key = Some (JStr value) →
  value ∉ allowed →
  validate_dict tc index !! key = Some (JStr value)
  ∧ _validate_test_case (JDict tc) index = Ok (validate_dict tc index).
Proof.
  intros Henum Hpresent _. split; [|done].
  unfold enums in Henum. rewrite !elem_of_cons, elem_of_nil in Henum.
  rewrite validate_dict_lookup. unfold repaired.
  destruct Henum as [[= -> ->]|[[= -> ->]|[]]]; by rewrite Hpresent.
Qed.

Lemma validation_keeps_out_of_enum_values_witness :
  validate_dict {[ "test_type" := JStr "smoke" ]} 1 !! "test_type"
    = Some (JStr "smoke")
  ∧ validate_dict {[ "priority" := JStr "urgent" ]} 1 !! "priority"
    = Some (JStr "urgent").
Proof.
  split.
  - apply (validation_keeps_out_of_enum_values
             {[ "test_type" := JStr "smoke" ]} 1 "test_type" "smoke"
             ["positive"; "negative"; "edge"]);
      [compute_done | reflexivity | compute_done].
  - apply (validation_keeps_out_of_enum_values
             {[ "priority" := JStr "urgent" ]} 1 "priority" "urgent"
             ["high"; "medium"; "low"]);
      [compute_done | reflexivity | compute_done].
Defined.

End ValidationProofs.

(** ** The fallback of the test-case generator *)

Module FallbackProofs.
Import PyStr TestCaseGenerator Spec.

Lemma capitalized_keywords_NoDup : NoDup (capitalize <$> keywords).
Proof. compute_done. Qed.

Lemma capitalized_keywords_truthy :
  Forall (λ f, truthy f = true) (capitalize <$> keywords).
Proof. compute_done. Qed.

Lemma matched_features_sublist (context : string) :
  matched_features context `sublist_of` capitalize <$> keywords.
Proof. unfold matched_features. apply fmap_sublist, sublist_filter. Qed.

Lemma matched_features_NoDup (context : string) : NoDup (matched_features context).
Proof.
  eapply sublist_NoDup;
    [apply capitalized_keywords_NoDup | apply matched_features_sublist].
Qed.

Lemma matched_features_length (context : string) :
  (length (matched_features context) ≤ 9)%nat.
Proof. apply (sublist_length _ _ (matched_features_sublist context)). Qed.

Section WithOrder.

Variable order : set_order.

Lemma order_Permutation (l : list string) : NoDup l → order l ≡ₚ l.
Proof.
  intros Hl. rewrite (list_of_set_perm order).
  apply NoDup_Permutation; [apply NoDup_remove_dups | done |].
  intros x. apply elem_of_remove_dups.
Qed.

(** The cut [[:10]] never removes anything: at most nine keywords match. *)
Lemma features_take_all (context : string) :
  _extract_features_from_context order context = order (matched_features context).
Proof.
  unfold _extract_features_from_context. apply take_ge.
  rewrite (Permutation_length (order_Permutation _ (matched_features_NoDup context))).
  pose proof (matched_features_length context). lia.
Qed.

Lemma features_Permutation (context : string) :
  _extract_features_from_context order context ≡ₚ matched_features context.
Proof.
  rewrite features_take_all.
  apply order_Permutation, matched_features_NoDup.
Qed.

Lemma features_length (context : string) :
  length (_extract_features_from_context order context)
  = length (matched_features context).
Proof. apply Permutation_length, features_Permutation. Qed.

Lemma features_truthy (context : string) :
  Forall (λ f, truthy f = true) (_extract_features_from_context order context).
Proof.
  rewrite features_Permutation. apply Forall_forall. intros f Hf.
  pose proof capitalized_keywords_truthy as Hall.
  rewrite Forall_forall in Hall. apply Hall.
  eapply elem_of_sublist; [done | apply matched_features_sublist].
Qed.

End WithOrder.

(** The feature named in a fallback record. *)
Lemma fallback_case_feature (features : list string) (i : nat) :
  fallback_case features i !! "feature"
  = Some (JStr (default "General Functionality" (features !! i))).
Proof.
  unfold fallback_case. simplify_map_eq. do 2 f_equal.
  case_decide as Hi; [done|]. by rewrite lookup_ge_None_2 by lia.
Qed.

Lemma fallback_case_test_type (features : list string) (i : nat) :
  fallback_case features i !! "test_type"
  = Some (JStr (if decide (i mod 3 = 1)%nat then "negative" else "positive")).
Proof.
  unfold fallback_case. simplify_map_eq. do 2 f_equal.
  repeat case_decide; done.
Qed.

(** The other fields do not depend on the features. *)
Lemma fallback_case_feature_free (features features' : list string) (i : nat) :
  Forall (λ key, fallback_case features i !! key = fallback_case features' i !! key)
         feature_free_fields.
Proof.
  unfold feature_free_fields, fallback_case.
  repeat (apply List.Forall_cons; [by simplify_map_eq|]). apply List.Forall_nil.
Qed.

Lemma fallback_case_well_formed (features : list string) (i : nat) :
  Forall (λ f, truthy f = true) features →
  well_formed (fallback_case features i) = true.
Proof.
  intros Hf.
  assert (truthy (default "General Functionality" (features !! i)) = true) as Ht.
  { destruct (features !! i) as [f|] eqn:Hi; [|done].
    by apply (Forall_lookup_1 _ _ _ _ Hf Hi). }
  unfold well_formed, required_fields. cbn [forallb].
  rewrite fallback_case_feature.
  unfold fallback_case. simplify_map_eq.
  change (filled "feature" (JStr ?f)) with (truthy f). rewrite Ht.
  by case_decide.
Qed.

Lemma len_or_3_matched (order : set_order) (context : string) :
  len_or_3 (_extract_features_from_context order context)
  = if decide (length (matched_features context) = 0%nat) then 3
    else Z.of_nat (length (matched_features context)).
Proof.
  unfold len_or_3. rewrite features_length.
  destruct (Z.eqb_spec (Z.of_nat (length (matched_features context))) 0);
    case_decide; (done || lia).
Qed.

Lemma fallback_length (order : set_order) (query context : string) (n : Z) :
  length (_create_fallback_test_cases order query context n)
  = Z.to_nat (Z.min n (len_or_3 (_extract_features_from_context order context))).
Proof.
  unfold _create_fallback_test_cases, range. by rewrite length_fmap, length_seq.
Qed.

Lemma fallback_field (order : set_order) (query context : string) (n : Z)
  (key : string) :
  (λ tc : gmap string json, tc !! key) <$> _create_fallback_test_cases order query context n
  = (λ i, fallback_case (_extract_features_from_context order context) i !! key)
    <$> seq 0 (length (_create_fallback_test_cases order query context n)).
Proof.
  rewrite fallback_length. unfold _create_fallback_test_cases, range.
  by rewrite <- list_fmap_compose.
Qed.

(** C6, as the claim states it, fails: when a single keyword matches and
    five cases are asked for, the fallback returns one record, not
    [min(5, max(1, 3)) = 3]. *)
Lemma fallback_count_is_not_max_3 :
  length (matched_features "the button") = 1%nat
  ∧ length (_create_fallback_test_cases insertion_order "login" "the button" 5) = 1%nat
  ∧ Z.to_nat (Z.min 5 (Z.max 1 3)) = 3%nat.
Proof. repeat split; by vm_compute. Qed.

(** C6, amended. For every context and every [requested_count ≥ 1] the
    fallback returns exactly [min(requested_count, m)] records, where [m] is
    the number of matched features, or 3 when none matched. It does not
    cycle: the features are pairwise distinct and, when any matched, there
    are no more records than features; record [i] (from 0) names feature
    [i], or ["General Functionality"] when none matched. The type is
    ["negative"] for the records with [i mod 3 = 1] and ["positive"] for
    the others. *)
Theorem fallback_count (order : set_order) (query context : string)
  (requested_count : Z) :
  1 <= requested_count →
  let features := _extract_features_from_context order context in
  let matched := length (matched_features context) in
  let cases := _create_fallback_test_cases order query context requested_count in
  length features = matched
  ∧ Z.of_nat (length cases)
    = Z.min requested_count
        (if decide (matched = 0%nat) then 3 else Z.of_nat matched)
  ∧ (matched = 0%nat ∨ (length cases ≤ matched)%nat)
  ∧ NoDup features
  ∧ (λ tc : gmap string json, tc !! "feature") <$> cases
    = (λ i, Some (JStr (default "General Functionality" (features !! i))))
      <$> seq 0 (length cases)
  ∧ (λ tc : gmap string json, tc !! "test_type") <$> cases
    = (λ i, Some (JStr (if decide (i mod 3 = 1)%nat then "negative" else "positive")))
      <$> seq 0 (length cases).
Proof.
  intros Hn features matched cases.
  assert (Z.of_nat (length cases)
          = Z.min requested_count
              (if decide (matched = 0%nat) then 3 else Z.of_nat matched)) as Hlen.
  { subst cases. rewrite fallback_length, len_or_3_matched.
    subst matched. case_decide; lia. }
  split; [apply features_length|]. split; [done|].
  split; [case_decide; [by left | right; lia]|].
  split.
  { subst features. rewrite features_Permutation. apply matched_features_NoDup. }
  subst cases. rewrite !fallback_field. split; apply list_fmap_ext; intros.
  - apply fallback_case_feature.
  - apply fallback_case_test_type.
Qed.

Lemma fallback_count_witness :
  1 <= 5
  ∧ Z.of_nat (length (_create_fallback_test_cases insertion_order "login"
                        "a form with a button" 5)) = Z.min 5 2.
Proof.
  split; [lia|].
  apply (fallback_count insertion_order "login" "a form with a button" 5). lia.
Defined.

(** C7, as the claim states it, fails: the order in which [list(set(...))]
    enumerates the matched features is not fixed by the context, and two
    runs that enumerate them in different orders return different lists.
    With one case asked for and a context that mentions a button and a
    form, one run tests the button and the other the form. *)
Lemma fallback_depends_on_set_order :
  _create_fallback_test_cases insertion_order "login" "a form with a button" 1
  ≠ _create_fallback_test_cases reverse_order "login" "a form with a button" 1.
Proof.
  intros Heq.
  apply (f_equal (λ cases : list (gmap string json),
                    cases !! 0%nat ≫= (λ tc, tc !! "feature"))) in Heq.
  vm_compute in Heq. discriminate Heq.
Qed.

(** C7, amended. For a fixed context, query and requested count, two runs
    that enumerate the set of matched features in the same order return
    identical lists. Whatever the two orders are, the two lists have the
    same length and agree, record by record, on every field other than
    [feature] and [test_scenario], and the features they draw from are the
    same up to order. *)
Theorem fallback_deterministic_up_to_set_order (order1 order2 : set_order)
  (query context : string) (requested_count : Z) :
  let cases1 := _create_fallback_test_cases order1 query context requested_count in
  let cases2 := _create_fallback_test_cases order2 query context requested_count in
  (order1 (matched_features context) = order2 (matched_features context) →
   cases1 = cases2)
  ∧ length cases1 = length cases2
  ∧ Forall (λ key, (λ tc : gmap string json, tc !! key) <$> cases1
                   = (λ tc : gmap string json, tc !! key) <$> cases2)
           feature_free_fields
  ∧ _extract_features_from_context order1 context
    ≡ₚ _extract_features_from_context order2 context.
Proof.
  intros cases1 cases2.
  assert (length cases1 = length cases2) as Hlen.
  { subst cases1 cases2. by rewrite !fallback_length, !len_or_3_matched. }
  split; [|split; [done|split]].
  - intros Horder. subst cases1 cases2. unfold _create_fallback_test_cases.
    by rewrite !features_take_all, Horder.
  - apply Forall_forall. intros key Hkey. subst cases1 cases2.
    rewrite !fallback_field, Hlen. apply list_fmap_ext. intros _ i _.
    pose proof (fallback_case_feature_free
                  (_extract_features_from_context order1 context)
                  (_extract_features_from_context order2 context) i) as Hfree.
    rewrite Forall_forall in Hfree. by apply Hfree.
  - by rewrite !features_Permutation.
Qed.

Lemma fallback_deterministic_up_to_set_order_witness :
  insertion_order (matched_features "a form with a button")
  = insertion_order (matched_features "a form with a button")
  ∧ _create_fallback_test_cases insertion_order "login" "a form with a button" 1
    = _create_fallback_test_cases insertion_order "login" "a form with a button" 1.
Proof.
  split; [reflexivity|].
  apply (fallback_deterministic_up_to_set_order insertion_order insertion_order
           "login" "a form with a button" 1).
  reflexivity.
Defined.

End FallbackProofs.

(** ** The generator as a whole *)

Module GeneratorProofs.
Import PyStr TestCaseGenerator Spec FallbackProofs.

(** Whatever the body does, [_generate_with_llm] hands back either the
    validated cases or the fallback. *)
Lemma generate_with_llm_cases (order : set_order)
  (create_completion : string → string → result string)
  (json_loads : string → result json) (query context : string) (n : Z) :
  (∃ validated,
     generate_body order create_completion json_loads query context n = Ok validated
     ∧ _generate_with_llm order create_completion json_loads query context n = validated)
  ∨ _generate_with_llm order create_completion json_loads query context n
    = _create_fallback_test_cases order query context n.
Proof.
  unfold _generate_with_llm.
  destruct (generate_body _ _ _ _ _ _) as [validated|e]; [left; by eexists | by right].
Qed.

Lemma fallback_well_formed (order : set_order) (query context : string) (n : Z) :
  Forall (λ tc, well_formed tc = true)
         (_create_fallback_test_cases order query context n).
Proof.
  unfold _create_fallback_test_cases. apply Forall_fmap, Forall_forall.
  intros i _. apply fallback_case_well_formed, features_truthy.
Qed.

(** C1, as the claim states it, fails: when no case is asked for, a failed
    generation is answered with the empty list. *)
Lemma fallback_empty_for_count_zero :
  generate_test_cases insertion_order
    (λ _ _, Raise (OtherError "timeout")) (λ _, Raise JSONDecodeError)
    (λ _ _, Ok []) "checkout discount" 0
  = Ok [].
Proof. by vm_compute. Qed.

(** C1, amended. For every query and every [requested_count ≥ 1], once the
    context is retrieved, [generate_test_cases] returns a list and raises
    nothing when the generation capability raises or when its output does
    not parse: in both cases the result is the fallback list, which is not
    empty, has at most [requested_count] records (so at most 5 for 5), and
    whose records are well formed: every required field present, of the type
    of the model and filled in, [grounded_in] included. *)
Theorem generation_failures_are_absorbed (order : set_order)
  (create_completion : string → string → result string)
  (json_loads : string → result json)
  (retrieve_context : string → Z → result (list context_doc))
  (query : string) (requested_count : Z) (context_docs : list context_doc) :
  retrieve_context query 5 = Ok context_docs →
  1 <= requested_count →
  let context := _build_context_string context_docs in
  let prompt := user_prompt query context requested_count in
  ((∃ e, create_completion system_prompt prompt = Raise e)
   ∨ (∃ content e,
        create_completion system_prompt prompt = Ok content
        ∧ json_loads (clean_response (strip content)) = Raise e)) →
  ∃ cases,
    generate_test_cases order create_completion json_loads retrieve_context
      query requested_count = Ok cases
    ∧ cases = _create_fallback_test_cases order query context requested_count
    ∧ cases ≠ []
    ∧ Z.of_nat (length cases) <= requested_count
    ∧ Forall (λ tc, well_formed tc = true) cases.
Proof.
  intros Hretrieved Hcount context prompt Hfails.
  exists (_create_fallback_test_cases order query context requested_count).
  split; [|split; [done|split; [|split]]].
  - unfold generate_test_cases. rewrite Hretrieved. simpl. f_equal.
    fold context. unfold _generate_with_llm, generate_body. fold prompt.
    destruct Hfails as [[e ->]|(content & e & -> & Hparse)]; simpl; [done|].
    unfold parse_and_validate. rewrite Hparse. simpl. by destruct e.
  - intros Hnil. apply (f_equal length) in Hnil.
    rewrite fallback_length, len_or_3_matched in Hnil. simpl in Hnil.
    case_decide; lia.
  - rewrite fallback_length. lia.
  - apply fallback_well_formed.
Qed.

Lemma generation_failures_are_absorbed_witness :
  ∃ cases,
    generate_test_cases insertion_order
      (λ _ _, Raise (OtherError "timeout")) (λ _, Raise JSONDecodeError)
      (λ _ _, Ok [ {| content := "Checkout form with a discount code";
                      metadata := {[ "source" := "spec.md" ]} |} ])
      "checkout discount" 5
    = Ok cases
    ∧ cases ≠ [] ∧ Z.of_nat (length cases) <= 5
    ∧ Forall (λ tc, well_formed tc = true) cases.
Proof.
  destruct (generation_failures_are_absorbed insertion_order
              (λ _ _, Raise (OtherError "timeout")) (λ _, Raise JSONDecodeError)
              (λ _ _, Ok [ {| content := "Checkout form with a discount code";
                              metadata := {[ "source" := "spec.md" ]} |} ])
              "checkout discount" 5
              [ {| content := "Checkout form with a discount code";
                   metadata := {[ "source" := "spec.md" ]} |} ]
              eq_refl ltac:(lia)
              (or_introl (ex_intro _ (OtherError "timeout") eq_refl)))
    as (cases & Hok & _ & Hne & Hlen & Hwf).
  exists cases. exact (conj Hok (conj Hne (conj Hlen Hwf))).
Defined.

End GeneratorProofs.

(** ** The ids of the vector store *)

Module VectorStoreProofs.
Import PyStr Chunking VectorStore.

Lemma doc_id_inj : Inj eq eq (λ i : nat, "doc_" +:+ str_of_nat i).
Proof.
  intros i j Heq. simpl in Heq. injection Heq as Heq.
  by apply (inj pretty).
Qed.

Lemma make_ids_NoDup (n : nat) : NoDup (make_ids n).
Proof. apply (NoDup_fmap_2 _), NoDup_seq. Qed.

Lemma make_ids_length (n : nat) : length (make_ids n) = n.
Proof. unfold make_ids. by rewrite length_fmap, length_seq. Qed.

Lemma make_ids_lookup (n i : nat) :
  (i < n)%nat → make_ids n !! i = Some ("doc_" +:+ str_of_nat i).
Proof.
  intros Hi. unfold make_ids. by rewrite list_lookup_fmap, lookup_seq_lt.
Qed.

(** The ids of a smaller batch open the ids of a larger one. *)
Lemma make_ids_prefix (n m : nat) : (n ≤ m)%nat → make_ids n `prefix_of` make_ids m.
Proof.
  intros Hle. unfold make_ids.
  replace m with (n + (m - n))%nat by lia.
  rewrite seq_app, fmap_app. by apply prefix_app_r.
Qed.

Lemma make_ids_first (n : nat) : n ≠ 0%nat → "doc_0" ∈ make_ids n.
Proof.
  intros Hn. apply list_elem_of_lookup. exists 0%nat.
  rewrite make_ids_lookup by lia. done.
Qed.

Section WithStore.

Context {E : Type}.
Variable generate_embeddings : list string → result (list E).
Variable collection_add : add_call E → result unit.

(** What a call that returns has handed to the collection. *)
Lemma build_returns (fuel : nat) (cfg : settings) (docs : list document)
  (call : add_call E) (count : Z) :
  build_from_documents generate_embeddings collection_add fuel cfg docs
  = Some (Ok (call, count)) →
  ∃ all, all_chunks_of fuel cfg docs = Some all
         ∧ generate_embeddings all.*1 = Ok (embeddings call)
         ∧ collection_add call = Ok tt
         ∧ ids call = make_ids (length all)
         ∧ documents call = all.*1
         ∧ metadatas call = all.*2
         ∧ count = Z.of_nat (length all).
Proof.
  unfold build_from_documents.
  destruct (all_chunks_of fuel cfg docs) as [all|]; [|done].
  simpl. destruct (generate_embeddings all.*1) as [embs|e] eqn:Hemb; [|done].
  simpl. destruct (collection_add _) as [[]|e] eqn:Hadd; [|done].
  simpl. intros [= <- <-]. exists all. simpl.
  repeat split; try done; by rewrite length_fmap.
Qed.

Lemma assigned_ids_make_ids (fuel : nat) (cfg : settings)
  (docs : list document) (assigned : list string) :
  assigned_ids generate_embeddings collection_add fuel cfg docs
  = Some (Ok assigned) →
  assigned = make_ids (length assigned).
Proof.
  unfold assigned_ids.
  destruct (build_from_documents _ _ _ _ _) as [[[call count]|e]|] eqn:Hbuild;
    [|done..].
  intros Heq. injection Heq as <-.
  apply build_returns in Hbuild as (all & _ & _ & _ & Hids & _).
  simpl. by rewrite Hids, make_ids_length.
Qed.

(** The number returned is the number of ids assigned. *)
Lemma build_count (fuel : nat) (cfg : settings) (docs : list document)
  (call : add_call E) (count : Z) :
  build_from_documents generate_embeddings collection_add fuel cfg docs
  = Some (Ok (call, count)) →
  count = Z.of_nat (length (ids call)) ∧ length (ids call) = length (documents call).
Proof.
  intros (all & _ & _ & _ & -> & -> & _ & ->)%build_returns.
  by rewrite make_ids_length, length_fmap.
Qed.

End WithStore.

(** C4, as the claim states it, fails: two builds with no reset between
    them both assign the id [doc_0]. *)
Lemma ids_restart_at_zero :
  assigned_ids Spec.one_vector_each Spec.refuse_empty 1 default_settings
    [ {| content := "Login needs a password."; source := "login.md"; type := "md" |} ]
  = Some (Ok ["doc_0"])
  ∧ assigned_ids Spec.one_vector_each Spec.refuse_empty 1 default_settings
      [ {| content := "The cart shows a total."; source := "cart.md"; type := "md" |} ]
    = Some (Ok ["doc_0"]).
Proof. split; by vm_compute. Qed.

(** C4, amended. The ids that one call of [build_from_documents] assigns
    are [doc_0], [doc_1], ... in increasing order of the chunk index, and
    are pairwise distinct within that call. The numbering starts again at 0
    in every call, whatever the collection holds by then: of the ids of two
    calls, those of one open those of the other, so two calls that each
    store a chunk both assign [doc_0]. *)
Theorem ids_unique_within_one_call {E : Type}
  (generate_embeddings : list string → result (list E))
  (collection_add1 collection_add2 : add_call E → result unit)
  (fuel : nat) (cfg : settings)
  (docs1 docs2 : list document) (ids1 ids2 : list string) :
  assigned_ids generate_embeddings collection_add1 fuel cfg docs1 = Some (Ok ids1) →
  assigned_ids generate_embeddings collection_add2 fuel cfg docs2 = Some (Ok ids2) →
  ids1 = (λ i : nat, "doc_" +:+ str_of_nat i) <$> seq 0 (length ids1)
  ∧ NoDup ids1
  ∧ (ids1 `prefix_of` ids2 ∨ ids2 `prefix_of` ids1)
  ∧ (ids1 = [] ∨ ids2 = [] ∨ ("doc_0" ∈ ids1 ∧ "doc_0" ∈ ids2)).
Proof.
  intros H1 H2.
  apply assigned_ids_make_ids in H1, H2.
  split; [done|]. rewrite H1, H2.
  split; [apply make_ids_NoDup|]. split.
  - destruct (decide (length ids1 ≤ length ids2)%nat).
    + left. by apply make_ids_prefix.
    + right. apply make_ids_prefix. lia.
  - destruct ids1 as [|id1 ids1]; [by left|].
    destruct ids2 as [|id2 ids2]; [by right; left|].
    right; right. split; by apply make_ids_first.
Qed.

Lemma ids_unique_within_one_call_witness :
  NoDup ["doc_0"; "doc_1"] ∧ ["doc_0"] `prefix_of` ["doc_0"; "doc_1"].
Proof.
  destruct (ids_unique_within_one_call Spec.one_vector_each
              Spec.refuse_empty Spec.refuse_empty 1 default_settings
              [ {| content := "Login needs a password."; source := "login.md";
                   type := "md" |};
                {| content := "The cart shows a total."; source := "cart.md";
                   type := "md" |} ]
              [ {| content := "Checkout takes a discount code.";
                   source := "checkout.md"; type := "md" |} ]
              ["doc_0"; "doc_1"] ["doc_0"] eq_refl eq_refl)
    as (_ & Hnodup & _ & _).
  split; [exact Hnodup|]. by exists ["doc_1"].
Defined.

End VectorStoreProofs.

(** ** The selector table *)

Module SelectorProofs.
Import PyStr ScriptGenerator Spec.

(** The table after the loop: under each key, the last element that got
    it; keys that no element got are as before. *)
Lemma foldl_add_selector (elements : list node)
  (selectors : gmap string element_info) (key : string) :
  foldl add_selector selectors elements !! key
  = match last (keyed key elements) with
    | Some element => Some (info_of element)
    | None => selectors !! key
    end.
Proof.
  revert selectors. induction elements as [|element elements IH];
    intros selectors; simpl; [done|].
  rewrite IH. unfold keyed. rewrite filter_cons.
  unfold add_selector.
  destruct (decide (selector_key (info_of element) = Some key)) as [Hkey|Hkey].
  - rewrite Hkey, lookup_insert_eq. fold (keyed key elements).
    destruct (keyed key elements) as [|e l]; [done|].
    rewrite last_cons_cons.
    destruct (last (e :: l)) eqn:Hlast; [done|]. by apply last_None in Hlast.
  - fold (keyed key elements). destruct (last (keyed key elements)); [done|].
    destruct (selector_key (info_of element)) as [key'|]; [|done].
    rewrite lookup_insert_ne; [done | congruence].
Qed.

Lemma substring_0_truthy (n : nat) (s : string) :
  truthy s = true → truthy (substring 0 (S n) s) = true.
Proof. by destruct s. Qed.

(** The key that the code gives a tag is the key read off its attributes. *)
Lemma selector_key_of_element (nm : string) (attrs : gmap string string)
  (cls : option (list string)) (children : list node) :
  selector_key (info_of (Tag nm attrs cls children))
  = key_of_element nm attrs (Tag nm attrs cls children).
Proof.
  unfold selector_key, key_of_element, visible_text, present, truthy_opt.
  cbn [info_of id name text tag].
  destruct (attrs !! "id") as [i|]; [destruct (truthy i); [done|]|];
    (destruct (attrs !! "name") as [n|]; [destruct (truthy n); [done|]|]);
    destruct (decide (nm ≠ "input")), (decide (nm = "input")); try done;
    by destruct (truthy _).
Qed.

(** [find_all] descends: a tag with one of the names that occurs at any
    depth of the document is found. *)
Lemma occurs_find_all (names : list string) (soup : list node)
  (nm : string) (attrs : gmap string string) (cls : option (list string))
  (children : list node) :
  occurs (Tag nm attrs cls children) soup → nm ∈ names →
  Tag nm attrs cls children ∈ find_all names soup.
Proof.
  intros Hocc Hnm. unfold find_all. apply list_elem_of_filter.
  split; [done|]. clear Hnm.
  induction Hocc as [soup Hin|soup nm' attrs' cls' children' Hin _ IH];
    apply list_elem_of_In, in_flat_map.
  - eexists. split; [by apply list_elem_of_In|]. by left.
  - eexists. split; [by apply list_elem_of_In|]. right.
    by apply list_elem_of_In.
Qed.

(** An element that gets a key has this key in the table. *)
Lemma keyed_in_table (soup : list node) (element : node) (key : string) :
  element ∈ find_all interactive soup →
  selector_key (info_of element) = Some key →
  key ∈ dom (_extract_selectors soup).
Proof.
  intros Hin Hkey. apply elem_of_dom.
  unfold _extract_selectors. rewrite foldl_add_selector.
  assert (element ∈ keyed key (find_all interactive soup)) as Hkeyed.
  { by apply list_elem_of_filter. }
  destruct (last (keyed key _)) as [e|] eqn:Hlast; [by eexists|].
  apply last_None in Hlast. rewrite Hlast in Hkeyed.
  by apply elem_of_nil in Hkeyed.
Qed.

(** C9, as the claim states it, fails: two elements without id and name
    that show the same text [Go], a button and a link, give two keys, each
    with its own entry; and two buttons that show the same empty text give
    no key at all. *)
Lemma same_text_gives_two_keys_or_none :
  get_text_strip (Tag "button" ∅ None [NavigableString "Go"])
  = get_text_strip (Tag "a" ∅ None [NavigableString "Go"])
  ∧ dom (_extract_selectors go_button_and_link)
    = {[ "button:contains('Go')"; "a:contains('Go')" ]}
  ∧ _extract_selectors go_button_and_link !! "button:contains('Go')"
    = Some (info_of (Tag "button" ∅ None [NavigableString "Go"]))
  ∧ _extract_selectors go_button_and_link !! "a:contains('Go')"
    = Some (info_of (Tag "a" ∅ None [NavigableString "Go"]))
  ∧ get_text_strip (Tag "button" ∅ None []) = EmptyString
  ∧ _extract_selectors two_empty_buttons = ∅.
Proof.
  assert (_extract_selectors go_button_and_link
          = <["a:contains('Go')" := info_of (Tag "a" ∅ None [NavigableString "Go"])]>
              (<["button:contains('Go')"
                 := info_of (Tag "button" ∅ None [NavigableString "Go"])]> ∅))
    as Htable.
  { unfold _extract_selectors.
    replace (find_all interactive go_button_and_link) with go_button_and_link
      by reflexivity.
    unfold go_button_and_link. cbn [foldl]. unfold add_selector.
    replace (selector_key (info_of (Tag "button" ∅ None [NavigableString "Go"])))
      with (Some "button:contains('Go')") by (vm_compute; reflexivity).
    replace (selector_key (info_of (Tag "a" ∅ None [NavigableString "Go"])))
      with (Some "a:contains('Go')") by (vm_compute; reflexivity).
    reflexivity. }
  split; [reflexivity|]. rewrite Htable.
  split; [rewrite !dom_insert_L, dom_empty_L; set_solver|].
  split; [rewrite lookup_insert_ne by done; by rewrite lookup_insert_eq|].
  split; [by rewrite lookup_insert_eq|].
  split; [reflexivity|].
  unfold _extract_selectors.
  replace (find_all interactive two_empty_buttons) with two_empty_buttons
    by reflexivity.
  unfold two_empty_buttons. cbn [foldl]. unfold add_selector.
  replace (selector_key (info_of (Tag "button" ∅ None [])))
    with (@None string) by (vm_compute; reflexivity).
  reflexivity.
Qed.



End SelectorProofs.

(** ** What [_generate_with_llm] returns in every case *)

Module GeneratorInvariants.
Import PyStr TestCaseGenerator Spec ValidationProofs FallbackProofs.

Lemma fallback_case_is_normalized (features : list string) (i : nat) :
  is_normalized (fallback_case features i) = true.
Proof.
  unfold is_normalized. apply andb_true_iff. split.
  - apply bool_decide_eq_true_2. unfold fallback_case, required_fields.
    rewrite !dom_insert_L, dom_singleton_L. simpl. set_solver.
  - unfold fallback_case, list_fields. cbn [forallb]. by simplify_map_eq.
Qed.

Lemma fallback_is_normalized (order : set_order) (query context : string) (n : Z) :
  Forall (λ tc, is_normalized tc = true)
         (_create_fallback_test_cases order query context n).
Proof.
  unfold _create_fallback_test_cases. apply Forall_fmap, Forall_forall.
  intros i _. apply fallback_case_is_normalized.
Qed.

(** When the validation loop ends without an exception, every entry was an
    object, and the result is the list of their normalized forms. *)
Lemma for_enumerate_validate_inv (tcs : list json) (start : nat)
  (validated : list (gmap string json)) :
  for_enumerate _validate_test_case start tcs = Ok validated →
  ∃ dicts, tcs = JDict <$> dicts
           ∧ validated = imap (λ i tc, validate_dict tc (start + i)) dicts.
Proof.
  revert start validated. induction tcs as [|tc tcs IH]; intros start validated.
  - intros [= <-]. by exists [].
  - simpl. destruct tc as [| | | | | |d]; try done. simpl.
    destruct (for_enumerate _ (S start) tcs) as [rest|e] eqn:Hrest; [|done].
    simpl. intros [= <-].
    destruct (IH _ _ Hrest) as (dicts & -> & ->).
    exists (d :: dicts). split; [done|]. simpl. rewrite Nat.add_0_r. f_equal.
    apply imap_ext. intros i x _. simpl. f_equal. lia.
Qed.

(** The first entry that is not an object ends the loop with an exception. *)
Lemma for_enumerate_validate_raises (tcs : list json) (start : nat) (tc : json) :
  tc ∈ tcs → (∀ d, tc ≠ JDict d) →
  ∃ e, for_enumerate _validate_test_case start tcs = Raise e ∧ e ≠ JSONDecodeError.
Proof.
  intros Hin Hnot. destruct (for_enumerate _ start tcs) as [validated|e] eqn:Hrun.
  - apply for_enumerate_validate_inv in Hrun as (dicts & -> & _).
    apply list_elem_of_fmap in Hin as (d & -> & _). by destruct (Hnot d).
  - exists e. split; [done|]. intros ->. clear Hin Hnot.
    revert start Hrun. induction tcs as [|x tcs IH]; intros start; [done|].
    simpl. destruct x; try done. simpl.
    destruct (for_enumerate _ (S start) tcs) eqn:Hrest; [done|].
    simpl. intros [= ->]. by eapply IH.
Qed.

Lemma list_prefix_length {A : Type} (l : list A) (n : Z) :
  0 <= n → Z.of_nat (length (list_prefix l n)) <= n.
Proof.
  intros Hn. unfold list_prefix, adjust_index.
  destruct (Z.ltb_spec n 0); [lia|]. rewrite length_take. lia.
Qed.

Section WithCapabilities.

Variable order : set_order.
Variable create_completion : string → string → result string.
Variable json_loads : string → result json.

(** The two ways a result comes about: the validated prefix of a parsed
    list of objects, or the fallback. *)
Lemma generate_with_llm_inv (query context : string) (n : Z) :
  (∃ parsed dicts,
     (match parsed with JList l => list_prefix l n | v => list_prefix [v] n end)
     = JDict <$> dicts
     ∧ _generate_with_llm order create_completion json_loads query context n = imap (λ i tc, validate_dict tc (S i)) dicts)
  ∨ _generate_with_llm order create_completion json_loads query context n = _create_fallback_test_cases order query context n.
Proof.
  unfold _generate_with_llm, generate_body.
  destruct (create_completion _ _) as [text|e]; simpl; [|by right].
  unfold parse_and_validate.
  destruct (json_loads _) as [parsed|e]; simpl; [|destruct e; by right].
  destruct (for_enumerate _ 1 _) as [validated|e] eqn:Hrun;
    [|destruct e; by right].
  apply for_enumerate_validate_inv in Hrun as (dicts & Hdicts & ->).
  left. exists parsed, dicts. split; [by destruct parsed|done].
Qed.

(** X1. Whatever the generation capability and the parser do, every record
    that [_generate_with_llm] returns is normalized: it has exactly the nine
    required fields, and [test_steps] and [grounded_in] hold lists. *)
Theorem generated_cases_are_normalized (query context : string) (n : Z) :
  Forall (λ tc, is_normalized tc = true) (_generate_with_llm order create_completion json_loads query context n).
Proof.
  destruct (generate_with_llm_inv query context n)
    as [(parsed & dicts & _ & ->)| ->].
  - apply Forall_forall. intros tc Hin.
    apply elem_of_lookup_imap in Hin as (i & d & -> & _).
    apply validate_dict_is_normalized.
  - apply fallback_is_normalized.
Qed.

(** X2. [_generate_with_llm] never returns more records than were asked
    for, on the validated path and on the fallback path alike. *)
Theorem generated_cases_at_most_requested (query context : string) (n : Z) :
  0 <= n → Z.of_nat (length (_generate_with_llm order create_completion json_loads query context n)) <= n.
Proof.
  intros Hn. destruct (generate_with_llm_inv query context n)
    as [(parsed & dicts & Hprefix & ->)| ->].
  - rewrite length_imap. apply (f_equal length) in Hprefix.
    rewrite length_fmap in Hprefix. rewrite <- Hprefix.
    destruct parsed; by apply list_prefix_length.
  - rewrite fallback_length. lia.
Qed.

(** X3. One entry that is not an object spoils the whole answer: if among
    the entries that are validated one is not a JSON object, nothing of the
    parsed output is kept and the result is the fallback list. *)
Theorem non_object_entry_gives_fallback (query context content : string)
  (n : Z) (parsed tc : json) :
  create_completion system_prompt (user_prompt query context n) = Ok content →
  json_loads (clean_response (strip content)) = Ok parsed →
  tc ∈ list_prefix (match parsed with JList l => l | v => [v] end) n →
  (∀ d, tc ≠ JDict d) →
  _generate_with_llm order create_completion json_loads query context n = _create_fallback_test_cases order query context n.
Proof.
  intros Hcall Hparse Hin Hnot.
  unfold _generate_with_llm, generate_body. rewrite Hcall. simpl.
  unfold parse_and_validate. rewrite Hparse. simpl.
  destruct (for_enumerate_validate_raises _ 1 tc Hin Hnot) as (e & -> & He).
  by destruct e.
Qed.

(** X4. A bare JSON object is treated as a list of one: when the output
    parses to a single object and at least one case is asked for, the
    result is that one object, normalized with index 1. *)
Theorem bare_object_is_one_case (query context content : string) (n : Z)
  (d : gmap string json) :
  create_completion system_prompt (user_prompt query context n) = Ok content →
  json_loads (clean_response (strip content)) = Ok (JDict d) →
  1 <= n →
  _generate_with_llm order create_completion json_loads query context n = [validate_dict d 1].
Proof.
  intros Hcall Hparse Hn.
  unfold _generate_with_llm, generate_body. rewrite Hcall. simpl.
  unfold parse_and_validate. rewrite Hparse. simpl.
  replace (list_prefix [JDict d] n) with [JDict d]; [reflexivity|].
  unfold list_prefix, adjust_index. simpl.
  destruct (Z.ltb_spec n 0); [lia|].
  replace (Z.to_nat (Z.min n (Z.of_nat 1))) with 1%nat by lia. done.
Qed.

End WithCapabilities.

Lemma generated_cases_at_most_requested_witness :
  0 <= 2
  ∧ Z.of_nat (length (_generate_with_llm insertion_order
                        (λ _ _, Ok "[{}, {}, {}]")
                        (λ _, Ok (JList [JDict ∅; JDict ∅; JDict ∅]))
                        "login" "a form" 2)) <= 2.
Proof.
  split; [lia|].
  apply (generated_cases_at_most_requested insertion_order
           (λ _ _, Ok "[{}, {}, {}]")
           (λ _, Ok (JList [JDict ∅; JDict ∅; JDict ∅])) "login" "a form" 2).
  lia.
Defined.

Lemma non_object_entry_gives_fallback_witness :
  _generate_with_llm insertion_order
    (λ _ _, Ok "[{}, 7]") (λ _, Ok (JList [JDict ∅; JInt 7])) "login" "a form" 5
  = _create_fallback_test_cases insertion_order "login" "a form" 5.
Proof.
  apply (non_object_entry_gives_fallback insertion_order
           (λ _ _, Ok "[{}, 7]") (λ _, Ok (JList [JDict ∅; JInt 7]))
           "login" "a form" "[{}, 7]" 5 (JList [JDict ∅; JInt 7]) (JInt 7)).
  - reflexivity.
  - reflexivity.
  - right. left.
  - intros d Heq. discriminate Heq.
Defined.

Lemma bare_object_is_one_case_witness :
  _generate_with_llm insertion_order
    (λ _ _, Ok "{}") (λ _, Ok (JDict ∅)) "login" "a form" 5
  = [validate_dict ∅ 1].
Proof.
  apply (bare_object_is_one_case insertion_order
           (λ _ _, Ok "{}") (λ _, Ok (JDict ∅)) "login" "a form" "{}" 5 ∅).
  - reflexivity.
  - reflexivity.
  - lia.
Defined.

End GeneratorInvariants.

(** ** More on the chunker *)

Module ChunkingMore.
Import PyStr Chunking Shape ChunkingProofs.

Lemma lstrip_head (s : string) : head_is_space (lstrip s) = false.
Proof.
  induction s as [|c s IH]; simpl; [done|].
  destruct (is_space c) eqn:Hc; [done|]. simpl. by rewrite Hc.
Qed.

Lemma rstrip_last (s : string) : last_is_space (rstrip s) = false.
Proof.
  induction s as [|c s IH]; simpl; [done|].
  destruct (rstrip s) as [|c' r] eqn:Hr.
  - destruct (is_space c) eqn:Hc; [done|]. simpl. by rewrite Hc.
  - exact IH.
Qed.

Lemma rstrip_head (s : string) :
  head_is_space s = false → head_is_space (rstrip s) = false.
Proof.
  destruct s as [|c s]; simpl; [done|]. intros Hc.
  destruct (rstrip s); [by rewrite Hc|done].
Qed.

(** [strip] leaves no white space at either end. *)
Lemma strip_trimmed (s : string) :
  head_is_space (strip s) = false ∧ last_is_space (strip s) = false.
Proof.
  unfold strip. split; [apply rstrip_head, lstrip_head | apply rstrip_last].
Qed.

Lemma chunk_loop_trimmed (fuel : nat) (text : string) (chunk_size overlap : Z) :
  ∀ start chunks result,
    Forall trimmed_nonempty chunks →
    chunk_loop fuel text chunk_size overlap start chunks = Some result →
    Forall trimmed_nonempty result.
Proof.
  induction fuel as [|fuel IH]; intros start chunks result Hall;
    cbn [chunk_loop]; [done|].
  destruct (start <? len text); [|by intros [= <-]].
  unfold chunk_step.
  destruct (truthy _) eqn:Ht; apply IH; [|done].
  apply Forall_app; split; [done|]. apply Forall_singleton.
  split; [by apply truthy_nonempty | apply strip_trimmed].
Qed.

(** X5. When [chunk_text] returns for a text longer than [chunk_size],
    every chunk it returns is non-empty and has no white space at its
    start or at its end. *)
Theorem long_text_chunks_are_trimmed (fuel : nat) (text : string)
  (chunk_size overlap : Z) (chunks : list string) :
  chunk_size < len text →
  chunk_text fuel text chunk_size overlap = Some chunks →
  Forall trimmed_nonempty chunks.
Proof.
  intros Hlong. unfold chunk_text.
  destruct (Z.leb_spec (len text) chunk_size); [lia|].
  by apply chunk_loop_trimmed.
Qed.

Lemma long_text_chunks_are_trimmed_witness :
  Forall trimmed_nonempty ["alpha beta g"; "ta gamma del"; "delta epsil"; "psilon"].
Proof.
  apply (long_text_chunks_are_trimmed 20 "alpha beta gamma delta epsilon" 12 4);
    [by vm_compute | reflexivity].
Defined.

(** Positions found by [rfind] are not negative. *)
Lemma rfind_from_ge (s d : string) (i j : Z) :
  rfind_from i s d = Some j → i <= j.
Proof.
  revert i j. induction s as [|c s IH]; intros i j; cbn [rfind_from].
  - destruct (String.prefix d ""); [intros [= Heq]; lia | done].
  - destruct (rfind_from (i + 1) s d) as [k|] eqn:Hk.
    + intros [= Heq]. apply IH in Hk. lia.
    + destruct (String.prefix d (String c s)); [intros [= Heq]; lia | done].
Qed.

Lemma find_break_inv (window : string) (ds : list string) (p : Z) (d : string) :
  find_break window ds = Some (p, d) → 0 <= p ∧ d ∈ ds.
Proof.
  induction ds as [|d' ds IH]; simpl; [done|].
  destruct (Z.eqb_spec (rfind window d') (-1)) as [|Hfound].
  - intros Hrest. destruct (IH Hrest). split; [done|]. by right.
  - intros [= <- <-]. split; [|by left].
    unfold rfind in *. destruct (rfind_from 0 window d') as [j|] eqn:Hj; [|done].
    apply rfind_from_ge in Hj. done.
Qed.

(** A cut at a delimiter ends at least two characters after [start]; a
    window that is not cut ends [chunk_size] after it. *)
Lemma window_end_cases (text : string) (chunk_size start : Z) :
  window_end text chunk_size start = start + chunk_size
  ∨ start + 2 <= window_end text chunk_size start.
Proof.
  unfold window_end. destruct (_ <? _); [|by left].
  destruct (find_break _ _) as [[p d]|] eqn:Hbreak; [|by left].
  right. apply find_break_inv in Hbreak as [Hp Hd].
  assert (len d = 2) as ->; [|lia].
  unfold delimiters in Hd. rewrite !elem_of_cons, elem_of_nil in Hd.
  destruct Hd as [->|[->|[->|[->|[]]]]]; reflexivity.
Qed.

Lemma chunk_step_progress (text : string) (chunk_size overlap start : Z) :
  overlap <= 1 → overlap < chunk_size →
  start + 1 <= (chunk_step text chunk_size overlap start).1.
Proof.
  intros Hov Hsize. unfold chunk_step. cbn [fst].
  destruct (window_end_cases text chunk_size start) as [-> | Hcut]; lia.
Qed.

Lemma chunk_loop_terminates (text : string) (chunk_size overlap : Z) :
  overlap <= 1 → overlap < chunk_size →
  ∀ fuel start chunks,
    Z.max 0 (len text - start) < Z.of_nat fuel →
    is_Some (chunk_loop fuel text chunk_size overlap start chunks).
Proof.
  intros Hov Hsize fuel.
  induction fuel as [|fuel IH]; intros start chunks Hfuel; cbn [chunk_loop].
  - lia.
  - destruct (Z.ltb_spec start (len text)); [|by eexists].
    pose proof (chunk_step_progress text chunk_size overlap start Hov Hsize) as Hstep.
    destruct (chunk_step text chunk_size overlap start) as [start' chunk].
    cbn [fst] in Hstep. apply IH. lia.
Qed.

(** X6. With an overlap of at most 1 (and below [chunk_size]) the chunker
    always returns: one unit of fuel per character, and one more, is
    enough. *)
Theorem chunk_text_terminates_with_small_overlap (text : string)
  (chunk_size overlap : Z) :
  overlap <= 1 → overlap < chunk_size →
  is_Some (chunk_text (S (String.length text)) text chunk_size overlap).
Proof.
  intros Hov Hsize. unfold chunk_text.
  destruct (len text <=? chunk_size); [by eexists|].
  apply chunk_loop_terminates; [done | done |]. unfold len. lia.
Qed.

Lemma chunk_text_terminates_with_small_overlap_witness :
  is_Some (chunk_text 52 "Hello world. This is a test. And more text here ok." 20 1).
Proof.
  apply (chunk_text_terminates_with_small_overlap
           "Hello world. This is a test. And more text here ok." 20 1); lia.
Defined.

End ChunkingMore.

(** ** More on [build_from_documents] *)

Module VectorStoreMore.
Import PyStr Chunking VectorStore Spec ChunkingProofs VectorStoreProofs.

Section WithStore.

Context {E : Type}.
Variable generate_embeddings : list string → result (list E).
Variable collection_add : add_call E → result unit.
Variable fuel : nat.
Variable cfg : settings.

Lemma chunks_of_metadata (doc : document) (cs : list (string * chunk_metadata)) :
  chunks_of fuel cfg doc = Some cs →
  Forall (λ md, (chunk_index md < total_chunks md)%nat
                ∧ md_source md = source doc ∧ md_type md = type doc) cs.*2.
Proof.
  unfold chunks_of.
  destruct (chunk_text fuel _ _ _) as [chunks|]; [|done].
  simpl. intros [= <-]. apply Forall_forall. intros md Hin.
  apply list_elem_of_fmap in Hin as ([c md'] & -> & Hin).
  apply elem_of_lookup_imap in Hin as (i & chunk & [= _ ->] & Hi).
  simpl. split; [|done]. by apply lookup_lt_Some in Hi.
Qed.

Lemma all_chunks_of_metadata (docs : list document)
  (all : list (string * chunk_metadata)) :
  all_chunks_of fuel cfg docs = Some all →
  Forall (λ md, (chunk_index md < total_chunks md)%nat
                ∧ ∃ doc, doc ∈ docs ∧ md_source md = source doc
                         ∧ md_type md = type doc) all.*2.
Proof.
  revert all. induction docs as [|doc docs IH]; intros all; simpl.
  - by intros [= <-].
  - destruct (chunks_of fuel cfg doc) as [cs|] eqn:Hcs; [|done]. simpl.
    destruct (all_chunks_of fuel cfg docs) as [rest|]; [|done]. simpl.
    intros [= <-]. rewrite fmap_app. apply Forall_app. split.
    + eapply Forall_impl; [by apply chunks_of_metadata|].
      intros md (Hlt & Hsrc & Hty). split; [done|]. exists doc.
      split; [by left|done].
    + eapply Forall_impl; [by apply IH|].
      intros md (Hlt & doc' & Hin & Heq). split; [done|]. exists doc'.
      split; [by right|done].
Qed.

(** X8. Every metadata record stored is consistent: its [chunk_index] is
    below its [total_chunks], and its source and type are those of one of
    the documents given. *)
Theorem stored_metadata_is_consistent (docs : list document)
  (call : add_call E) (count : Z) :
  build_from_documents generate_embeddings collection_add fuel cfg docs
  = Some (Ok (call, count)) →
  Forall (λ md, (chunk_index md < total_chunks md)%nat
                ∧ ∃ doc, doc ∈ docs ∧ md_source md = source doc
                         ∧ md_type md = type doc)
         (metadatas call).
Proof.
  intros (all & Hall & _ & _ & _ & _ & -> & _)%build_returns.
  by apply all_chunks_of_metadata.
Qed.

Lemma all_chunks_of_short (docs : list document) :
  Forall (λ doc, len (content doc) <= CHUNK_SIZE cfg) docs →
  all_chunks_of fuel cfg docs
  = Some ((λ doc, (content doc,
                   {| md_source := source doc; md_type := type doc;
                      chunk_index := 0; total_chunks := 1 |})) <$> docs).
Proof.
  induction 1 as [|doc docs Hdoc _ IH]; simpl; [done|].
  unfold chunks_of. rewrite (chunk_text_short _ _ _ _ Hdoc). simpl.
  by rewrite IH.
Qed.


End WithStore.

Lemma stored_metadata_is_consistent_witness :
  Forall (λ md, (chunk_index md < total_chunks md)%nat
                ∧ ∃ doc, doc ∈ [ {| content := "Login needs a password.";
                                    source := "login.md"; type := "md" |} ]
                         ∧ md_source md = source doc ∧ md_type md = type doc)
         [ {| md_source := "login.md"; md_type := "md";
              chunk_index := 0; total_chunks := 1 |} ].
Proof.
  exact (stored_metadata_is_consistent Spec.one_vector_each Spec.refuse_empty
           1 default_settings
           [ {| content := "Login needs a password."; source := "login.md";
                type := "md" |} ]
           {| ids := ["doc_0"]; embeddings := [[0]];
              documents := ["Login needs a password."];
              metadatas := [ {| md_source := "login.md"; md_type := "md";
                                chunk_index := 0; total_chunks := 1 |} ] |}
           1 eq_refl).
Defined.


End VectorStoreMore.

(** ** Facts on strings *)

Module StringFacts.
Import PyStr.

Lemma app_cons (x : ascii) (a b : string) :
  String x a +:+ b = String x (a +:+ b).
Proof. reflexivity. Qed.

Lemma app_nil_l (b : string) : "" +:+ b = b.
Proof. reflexivity. Qed.

Lemma app_assoc (a b c : string) : (a +:+ b) +:+ c = a +:+ (b +:+ c).
Proof.
  induction a as [|x a IH]; [done|]. rewrite !app_cons. by f_equal.
Qed.

Lemma app_nil_r (a : string) : a +:+ "" = a.
Proof.
  induction a as [|x a IH]; [done|]. rewrite app_cons. by f_equal.
Qed.

Lemma lower_app (a b : string) : lower (a +:+ b) = lower a +:+ lower b.
Proof.
  induction a as [|x a IH]; [done|].
  rewrite app_cons. cbn [lower]. rewrite app_cons. by f_equal.
Qed.

Lemma prefix_nil (s : string) : String.prefix "" s = true.
Proof. by destruct s. Qed.

Lemma prefix_refl (s : string) : String.prefix s s = true.
Proof.
  induction s as [|x s IH]; simpl; [done|].
  destruct (ascii_dec x x); [done|congruence].
Qed.

Lemma prefix_app (d a b : string) :
  String.prefix d a = true → String.prefix d (a +:+ b) = true.
Proof.
  revert a. induction d as [|x d IH]; intros a; [intros _; apply prefix_nil|].
  destruct a as [|y a]; [done|]. rewrite app_cons. cbn [String.prefix].
  destruct (ascii_dec x y); [apply IH|done].
Qed.

Lemma contains_nil (s : string) : contains "" s = true.
Proof. destruct s; simpl; [done|]. done. Qed.

Lemma contains_refl (s : string) : contains s s = true.
Proof.
  destruct s as [|x s]; [done|].
  cbn [contains]. by rewrite prefix_refl.
Qed.

Lemma contains_app_l (d a b : string) :
  contains d a = true → contains d (a +:+ b) = true.
Proof.
  induction a as [|x a IH]; cbn [contains].
  - destruct d; [intros _; apply contains_nil | done].
  - intros [Hp|Hc]%orb_true_iff; rewrite app_cons; cbn [contains];
      apply orb_true_iff.
    + left. rewrite <- app_cons. by apply prefix_app.
    + right. by apply IH.
Qed.

Lemma contains_app_r (d a b : string) :
  contains d b = true → contains d (a +:+ b) = true.
Proof.
  intros Hb. induction a as [|x a IH]; [done|].
  rewrite app_cons. cbn [contains]. apply orb_true_iff. by right.
Qed.

(** What occurs in a part occurs in the whole. *)
Lemma contains_middle (d pre x post : string) :
  contains d x = true → contains d (pre +:+ x +:+ post) = true.
Proof. intros Hx. by apply contains_app_r, contains_app_l. Qed.

Lemma join_occurs (sep part : string) (parts : list string) :
  part ∈ parts → ∃ pre post, join sep parts = pre +:+ part +:+ post.
Proof.
  induction parts as [|p parts IH]; [by intros ?%elem_of_nil|].
  intros [->|Hin]%elem_of_cons.
  - destruct parts as [|q parts].
    + exists "", "". cbn [join]. by rewrite app_nil_l, app_nil_r.
    + exists "", (sep +:+ join sep (q :: parts)). by rewrite app_nil_l.
  - destruct (IH Hin) as (pre & post & Heq).
    destruct parts as [|q parts]; [by apply elem_of_nil in Hin|].
    exists (p +:+ sep +:+ pre), post.
    change (join sep (p :: q :: parts)) with (p +:+ sep +:+ join sep (q :: parts)).
    by rewrite Heq, !app_assoc.
Qed.

End StringFacts.

(** ** The context string and the features drawn from it *)

Module ContextProofs.
Import PyStr TestCaseGenerator Spec StringFacts FallbackProofs.

(** The content of every retrieved document stands, unchanged, somewhere in
    the context string. *)
Lemma context_string_occurs (context_docs : list context_doc) (doc : context_doc) :
  doc ∈ context_docs →
  ∃ pre post, _build_context_string context_docs = pre +:+ content doc +:+ post.
Proof.
  intros Hin. apply list_elem_of_lookup in Hin as [i Hi].
  assert (context_part i doc ∈ imap context_part context_docs) as Hpart.
  { apply elem_of_lookup_imap. by exists i, doc. }
  destruct (join_occurs nl _ _ Hpart) as (pre & post & Heq).
  unfold _build_context_string. rewrite Heq. unfold context_part.
  exists (pre +:+ "[Document " +:+ str_of_nat (i + 1) +:+ " - "
          +:+ default "unknown" (metadata doc !! "source") +:+ "]" +:+ nl),
         (nl +:+ post).
  by rewrite !app_assoc.
Qed.

(** X10. The context string that is sent to the generator, and scanned by
    the fallback, contains the content of every retrieved document. *)
Theorem context_contains_every_document (context_docs : list context_doc)
  (doc : context_doc) :
  doc ∈ context_docs →
  contains (content doc) (_build_context_string context_docs) = true.
Proof.
  intros Hin. destruct (context_string_occurs _ _ Hin) as (pre & post & ->).
  apply contains_middle, contains_refl.
Qed.

Lemma context_contains_every_document_witness :
  contains "Checkout form"
    (_build_context_string
       [ {| content := "Login page"; metadata := ∅ |};
         {| content := "Checkout form"; metadata := {[ "source" := "shop.md" ]} |} ])
  = true.
Proof.
  apply (context_contains_every_document
           [ {| content := "Login page"; metadata := ∅ |};
             {| content := "Checkout form"; metadata := {[ "source" := "shop.md" ]} |} ]
           {| content := "Checkout form"; metadata := {[ "source" := "shop.md" ]} |}).
  right. left.
Defined.

(** X11. A keyword of the fixed vocabulary that occurs, in any case, in the
    content of some retrieved document becomes a feature of the fallback:
    its capitalized form is in the list that
    [_extract_features_from_context] returns for the context string. *)
Theorem keyword_in_document_becomes_feature (order : set_order)
  (context_docs : list context_doc) (doc : context_doc) (keyword : string) :
  keyword ∈ keywords →
  doc ∈ context_docs →
  contains (lower keyword) (lower (content doc)) = true →
  capitalize keyword
  ∈ _extract_features_from_context order (_build_context_string context_docs).
Proof.
  intros Hkey Hdoc Hoccurs.
  rewrite features_Permutation. unfold matched_features.
  apply list_elem_of_fmap. exists keyword. split; [done|].
  apply list_elem_of_filter. split; [|done].
  destruct (context_string_occurs _ _ Hdoc) as (pre & post & ->).
  rewrite !lower_app. by apply contains_middle.
Qed.

Lemma keyword_in_document_becomes_feature_witness :
  "Checkout"
  ∈ _extract_features_from_context insertion_order
      (_build_context_string
         [ {| content := "The CHECKOUT page"; metadata := ∅ |} ]).
Proof.
  apply (keyword_in_document_becomes_feature insertion_order
           [ {| content := "The CHECKOUT page"; metadata := ∅ |} ]
           {| content := "The CHECKOUT page"; metadata := ∅ |} "checkout").
  - compute_done.
  - left.
  - reflexivity.
Defined.

End ContextProofs.

(** ** More on the selector table *)

Module SelectorsMore.
Import PyStr ScriptGenerator Spec SelectorsUsed StringFacts SelectorProofs.

(** X12. Every entry of the selector table describes an interactive
    element of the document and is stored under the key of that very
    element. *)
Theorem selector_entries_are_sound (soup : list node) (key : string)
  (info : element_info) :
  _extract_selectors soup !! key = Some info →
  ∃ element,
    element ∈ find_all interactive soup
    ∧ tag_name element ∈ interactive
    ∧ info = info_of element
    ∧ selector_key info = Some key.
Proof.
  unfold _extract_selectors. rewrite foldl_add_selector, lookup_empty.
  destruct (last (keyed key _)) as [element|] eqn:Hlast; [|done].
  intros [= <-]. exists element.
  apply last_Some in Hlast as [l Hl].
  assert (element ∈ keyed key (find_all interactive soup)) as Hin.
  { rewrite Hl. apply elem_of_app. right. by left. }
  apply list_elem_of_filter in Hin as [Hkey Hin].
  split; [done|]. split; [|done].
  by apply list_elem_of_filter in Hin as [Htag _].
Qed.

Lemma selector_entries_are_sound_witness :
  ∃ element,
    element ∈ find_all interactive email_and_submit
    ∧ tag_name element ∈ interactive
    ∧ {| tag := "input"; id := Some "email"; name := None; class := [];
         type := None; text := None; placeholder := None; value := None |}
      = info_of element
    ∧ selector_key
        {| tag := "input"; id := Some "email"; name := None; class := [];
           type := None; text := None; placeholder := None; value := None |}
      = Some "#email".
Proof.
  apply (selector_entries_are_sound email_and_submit "#email").
  unfold _extract_selectors.
  replace (find_all interactive email_and_submit) with email_and_submit
    by reflexivity.
  unfold email_and_submit. cbn [foldl]. unfold add_selector.
  replace (selector_key (info_of (Tag "input" {[ "id" := "email" ]} None [])))
    with (Some "#email") by (vm_compute; reflexivity).
  replace (selector_key (info_of (Tag "button" ∅ None [NavigableString "Submit"])))
    with (Some "button:contains('Submit')") by (vm_compute; reflexivity).
  rewrite lookup_insert_ne by done. rewrite lookup_insert_eq.
  reflexivity.
Defined.

Lemma foldl_add_selector_size (elements : list node)
  (selectors : gmap string element_info) :
  (size (foldl add_selector selectors elements) ≤ size selectors + length elements)%nat.
Proof.
  revert selectors. induction elements as [|element elements IH];
    intros selectors; simpl; [lia|].
  etrans; [apply IH|]. unfold add_selector.
  destruct (selector_key (info_of element)) as [key|]; [|lia].
  destruct (selectors !! key) as [old|] eqn:Hold.
  - rewrite map_size_insert_Some by done. lia.
  - rewrite map_size_insert_None by done. lia.
Qed.

(** X13. No keyed element is lost and none is counted twice: the key of
    every interactive element that gets one is in the table, and the table
    has at most as many entries as the document has interactive
    elements. *)
Theorem selector_keys_are_complete (soup : list node) (element : node)
  (key : string) :
  element ∈ find_all interactive soup →
  selector_key (info_of element) = Some key →
  is_Some (_extract_selectors soup !! key)
  ∧ (size (_extract_selectors soup) ≤ length (find_all interactive soup))%nat.
Proof.
  intros Hin Hkey. split.
  - unfold _extract_selectors. rewrite foldl_add_selector.
    assert (element ∈ keyed key (find_all interactive soup)) as Hkeyed.
    { by apply list_elem_of_filter. }
    destruct (last (keyed key _)) as [e|] eqn:Hlast; [by eexists|].
    apply last_None in Hlast. rewrite Hlast in Hkeyed.
    by apply elem_of_nil in Hkeyed.
  - unfold _extract_selectors.
    etrans; [apply foldl_add_selector_size|]. by rewrite map_size_empty.
Qed.

Lemma selector_keys_are_complete_witness :
  is_Some (_extract_selectors email_and_submit !! "button:contains('Submit')")
  ∧ (size (_extract_selectors email_and_submit)
     ≤ length (find_all interactive email_and_submit))%nat.
Proof.
  apply (selector_keys_are_complete email_and_submit
           (Tag "button" ∅ None [NavigableString "Submit"])).
  - right. left.
  - vm_compute. reflexivity.
Defined.

End SelectorsMore.

(** ** The selectors a script uses *)

Module SelectorsUsedProofs.
Import PyStr ScriptGenerator Spec SelectorsUsed StringFacts SelectorProofs.

Lemma dict_set_to_map {V : Type} (items : list (string * V)) (key : string) (v : V) :
  list_to_map (dict_set items key v) =@{gmap string V} <[key := v]> (list_to_map items).
Proof.
  induction items as [|[k w] items IH]; simpl; [done|].
  case_decide as Hk; simpl.
  - subst k. by rewrite insert_insert_eq.
  - rewrite IH. by apply insert_insert_ne.
Qed.

(** The items and the table are the same mapping. *)
Lemma foldl_items_to_map (elements : list node)
  (items : list (string * element_info)) :
  list_to_map (foldl add_selector_item items elements)
  =@{gmap string element_info} foldl add_selector (list_to_map items) elements.
Proof.
  revert items. induction elements as [|element elements IH];
    intros items; simpl; [done|].
  rewrite IH. f_equal. unfold add_selector_item, add_selector.
  destruct (selector_key (info_of element)); [apply dict_set_to_map|done].
Qed.

Lemma selector_items_to_map (soup : list node) :
  list_to_map (selector_items soup) = _extract_selectors soup.
Proof. apply (foldl_items_to_map _ []). Qed.

(** The keys of the items are the keys of the table. *)
Lemma selector_items_keys (soup : list node) (key : string) :
  key ∈ (selector_items soup).*1 ↔ is_Some (_extract_selectors soup !! key).
Proof.
  rewrite <- selector_items_to_map. split.
  - intros Hin. destruct (list_to_map (selector_items soup) !! key) eqn:Hnone;
      [by eexists|].
    by apply not_elem_of_list_to_map in Hnone.
  - intros [info Hinfo]. apply elem_of_list_to_map_2 in Hinfo.
    apply list_elem_of_fmap. by exists (key, info).
Qed.

Lemma replace_double_quote_id (s : string) :
  no_double_quote s = true → replace_char double_quote single_quote s = s.
Proof.
  induction s as [|c s IH]; simpl; [done|].
  intros [Hc Hs]%andb_true_iff. rewrite IH by done.
  case_decide as Heq; [|done]. subst c. done.
Qed.

(** X15. A key of the selector table that holds no double quote and occurs
    literally in the script is reported as used. *)
Theorem literal_selector_is_reported (script : string) (soup : list node)
  (selector : string) :
  is_Some (_extract_selectors soup !! selector) →
  no_double_quote selector = true →
  contains selector script = true →
  selector ∈ _extract_used_selectors script (selector_items soup).
Proof.
  intros Hkey Hquote Hoccurs. unfold _extract_used_selectors.
  apply list_elem_of_filter. split; [|by apply selector_items_keys].
  unfold selector_used. rewrite (replace_double_quote_id _ Hquote), Hoccurs.
  apply orb_true_r.
Qed.

Lemma literal_selector_is_reported_witness :
  "#email"
  ∈ _extract_used_selectors "driver.find_element(By.CSS_SELECTOR, '#email')"
      (selector_items email_and_submit).
Proof.
  apply (literal_selector_is_reported
           "driver.find_element(By.CSS_SELECTOR, '#email')" email_and_submit "#email").
  - vm_compute. by eexists.
  - reflexivity.
  - reflexivity.
Defined.

End SelectorsUsedProofs.

(** ** The validators *)

Module ValidatorsProofs.
Import PyStr Validators StringFacts.

Lemma lower_char_dot (c : ascii) : lower_char c = dot ↔ c = dot.
Proof.
  split; [|by intros ->].
  destruct c as [[] [] [] [] [] [] [] []]; vm_compute; congruence.
Qed.

Lemma lower_char_idemp (c : ascii) : lower_char (lower_char c) = lower_char c.
Proof. destruct c as [[] [] [] [] [] [] [] []]; by vm_compute. Qed.

Lemma lower_idemp (s : string) : lower (lower s) = lower s.
Proof.
  induction s as [|c s IH]; cbn [lower]; [done|].
  by rewrite lower_char_idemp, IH.
Qed.

Lemma lower_no_dot (s : string) : no_dot s = true → no_dot (lower s) = true.
Proof.
  induction s as [|c s IH]; cbn [lower no_dot]; [done|].
  intros [Hc Hs]%andb_true_iff. apply andb_true_iff. split; [|by apply IH].
  apply negb_true_iff, bool_decide_eq_false_2. intros Heq.
  apply (proj1 (lower_char_dot c)) in Heq. rewrite Heq in Hc. done.
Qed.

Lemma split_nonempty (sep : ascii) (s : string) : split sep s ≠ [].
Proof.
  destruct s as [|c s]; cbn [split]; [done|].
  case_decide; [done|]. by destruct (split sep s).
Qed.

(** A string without the separator is its own single segment. *)
Lemma split_no_dot (s : string) : no_dot s = true → split dot s = [s].
Proof.
  induction s as [|c s IH]; cbn [split no_dot]; [done|].
  intros [Hc Hs]%andb_true_iff.
  apply negb_true_iff, bool_decide_eq_false in Hc.
  rewrite decide_False by done. by rewrite IH.
Qed.

(** The last segment only depends on what follows the last separator. *)
Lemma split_last_after (sep : ascii) (a e : string) :
  last (split sep (a +:+ String sep e)) = last (split sep e).
Proof.
  assert (∀ x y (l : list string), l ≠ [] → last (x :: l) = last (y :: l)) as Hlast.
  { intros x y [|z l]; [done|]. intros _. by rewrite !last_cons_cons. }
  induction a as [|c a IH].
  - rewrite app_nil_l. cbn [split]. rewrite decide_True by done.
    destruct (split sep e) eqn:He; [by apply split_nonempty in He|done].
  - rewrite app_cons. cbn [split]. rewrite <- IH.
    pose proof (split_nonempty sep (a +:+ String sep e)) as Hne.
    destruct (split sep (a +:+ String sep e)) as [|seg segs] eqn:Hs; [done|].
    assert (segs ≠ []) as Hsegs.
    { clear IH Hne. revert seg segs Hs. induction a as [|c' a IH'];
        intros seg segs.
      - rewrite app_nil_l. cbn [split]. rewrite decide_True by done.
        intros [= <- <-]. apply split_nonempty.
      - rewrite app_cons. cbn [split]. case_decide.
        + intros [= <- <-]. apply split_nonempty.
        + destruct (split sep (a +:+ String sep e)) as [|seg' segs'] eqn:Hs';
            [by apply split_nonempty in Hs'|].
          intros [= <- <-]. by eapply IH'. }
    case_decide; [|by apply Hlast].
    destruct segs; [done|]. by rewrite !last_cons_cons.
Qed.



(** X17. A name without any dot is taken whole as its own extension: it is
    accepted exactly when ["." + name.lower()] is in the list, so a file
    called [pdf] passes where [.pdf] is allowed. *)
Theorem dotless_name_is_its_extension (filename : string) (allowed : list string) :
  no_dot filename = true →
  validate_file_extension filename allowed
  = bool_decide (String dot (lower filename) ∈ allowed).
Proof.
  intros Hname. unfold validate_file_extension.
  by rewrite (split_no_dot _ (lower_no_dot _ Hname)).
Qed.

Lemma dotless_name_is_its_extension_witness :
  validate_file_extension "PDF" [".pdf"] = true.
Proof.
  rewrite (dotless_name_is_its_extension "PDF" [".pdf"]); reflexivity.
Defined.

Lemma split_lower_fixed (sep : ascii) (s : string) :
  lower s = s → Forall (λ seg, lower seg = seg) (split sep s).
Proof.
  induction s as [|c s IH]; cbn [split lower].
  - intros _. by apply Forall_singleton.
  - intros [= Hc Hs]. specialize (IH Hs). case_decide.
    + by apply Forall_cons.
    + destruct (split sep s) as [|seg segs]; cbn [lower].
      * apply Forall_singleton. cbn [lower]. by rewrite Hc.
      * apply Forall_cons in IH as [Hseg Hsegs]. apply Forall_cons.
        split; [|done]. cbn [lower]. by rewrite Hc, Hseg.
Qed.

Lemma split_segments_no_sep (s : string) :
  Forall (λ seg, no_dot seg = true) (split dot s).
Proof.
  induction s as [|c s IH]; cbn [split].
  - by apply Forall_singleton.
  - case_decide as Hc.
    + by apply Forall_cons.
    + assert (negb (bool_decide (c = dot)) = true) as Hneg.
      { by apply negb_true_iff, bool_decide_eq_false_2. }
      destruct (split dot s) as [|seg segs].
      * apply Forall_singleton. cbn [no_dot]. by rewrite Hneg.
      * apply Forall_cons in IH as [Hseg Hsegs]. apply Forall_cons.
        split; [|done]. cbn [no_dot]. by rewrite Hneg, Hseg.
Qed.



Lemma sanitize_app (a b : string) :
  sanitize_filename (a +:+ b) = sanitize_filename a +:+ sanitize_filename b.
Proof.
  induction a as [|c a IH]; [done|].
  rewrite app_cons. cbn [sanitize_filename].
  destruct (kept c); [|done]. rewrite app_cons. by f_equal.
Qed.

Lemma sanitize_all_kept (s : string) : all_chars kept (sanitize_filename s) = true.
Proof.
  induction s as [|c s IH]; cbn [sanitize_filename]; [done|].
  destruct (kept c) eqn:Hc; [|done]. cbn [all_chars]. by rewrite Hc.
Qed.

Lemma sanitize_fixed (s : string) :
  all_chars kept s = true → sanitize_filename s = s.
Proof.
  induction s as [|c s IH]; cbn [sanitize_filename all_chars]; [done|].
  intros [Hc Hs]%andb_true_iff. rewrite Hc. by rewrite IH.
Qed.

(** X19. [sanitize_filename] leaves only word characters, white space,
    dots and hyphens, so no slash and no backslash survives; applying it
    again changes nothing. *)
Theorem sanitize_filename_is_idempotent (filename : string) :
  all_chars kept (sanitize_filename filename) = true
  ∧ all_chars (λ c, negb (bool_decide (c = ascii_of_nat 47))
                    && negb (bool_decide (c = ascii_of_nat 92)))
              (sanitize_filename filename) = true
  ∧ sanitize_filename (sanitize_filename filename) = sanitize_filename filename.
Proof.
  split; [apply sanitize_all_kept|]. split; [|apply sanitize_fixed, sanitize_all_kept].
  induction filename as [|c s IH]; cbn [sanitize_filename]; [done|].
  destruct (kept c) eqn:Hc; [|done]. cbn [all_chars]. rewrite IH, andb_true_r.
  apply andb_true_iff; split; apply negb_true_iff, bool_decide_eq_false_2;
    intros ->; by vm_compute in Hc.
Qed.

(** X20. [sanitize_filename] works character by character and keeps every
    dot: the parent-directory prefix [../] loses its slash but not its
    dots. *)
Theorem sanitize_filename_keeps_dots (a b : string) :
  sanitize_filename (a +:+ b) = sanitize_filename a +:+ sanitize_filename b
  ∧ sanitize_filename ("../" +:+ b) = ".." +:+ sanitize_filename b.
Proof. split; [apply sanitize_app|]. by rewrite sanitize_app. Qed.

End ValidatorsProofs.

(** ** The cleaning of a response *)

Module CleanProofs.
Import PyStr TestCaseGenerator Fences StringFacts.

Lemma sub_fence_json_none (s : string) :
  no_json_fence s = true →
  sub_fence_json 0 false s = s ∧ sub_fence_json 0 true s = lstrip s.
Proof.
  induction s as [|c s IH]; [done|].
  cbn [no_json_fence]. intros [Hc Hs]%andb_true_iff.
  apply negb_true_iff in Hc. destruct (IH Hs) as [IHf IHt].
  cbn [sub_fence_json lstrip]. rewrite Hc, IHf, IHt. cbn [andb].
  by destruct (is_space c).
Qed.

Lemma prefix_backtick (p c : ascii) (rest s : string) :
  c ≠ p → String.prefix (String p rest) (String c s) = false.
Proof.
  intros Hne. cbn [String.prefix]. destruct (ascii_dec p c); [congruence|done].
Qed.

Lemma no_backtick_no_json_fence (x t : string) :
  no_backtick x = true → no_json_fence t = true → no_json_fence (x +:+ t) = true.
Proof.
  intros Hx Ht. induction x as [|c x IH]; [done|].
  cbn [no_backtick] in Hx. apply andb_true_iff in Hx as [Hc Hx].
  apply negb_true_iff, bool_decide_eq_false in Hc.
  rewrite app_cons. cbn [no_json_fence]. rewrite (IH Hx), andb_true_r.
  apply negb_true_iff. by apply prefix_backtick.
Qed.

Lemma sub_fence_end_closing (y : string) :
  no_backtick y = true → sub_fence_end (y +:+ "```") = y.
Proof.
  induction y as [|c y IH]; [done|].
  cbn [no_backtick]. intros [Hc Hy]%andb_true_iff.
  apply negb_true_iff, bool_decide_eq_false in Hc.
  rewrite app_cons. cbn [sub_fence_end].
  rewrite (prefix_backtick _ c _ _ Hc). cbn [andb]. by rewrite IH.
Qed.

Lemma sub_fence_end_none (s : string) :
  no_backtick s = true → sub_fence_end s = s.
Proof.
  induction s as [|c s IH]; [done|].
  cbn [no_backtick]. intros [Hc Hs]%andb_true_iff.
  apply negb_true_iff, bool_decide_eq_false in Hc.
  cbn [sub_fence_end]. rewrite (prefix_backtick _ c _ _ Hc). cbn [andb].
  by rewrite IH.
Qed.

Lemma lstrip_app_stop (x t : string) (c : ascii) :
  is_space c = false → lstrip (x +:+ String c t) = lstrip x +:+ String c t.
Proof.
  intros Hc. induction x as [|d x IH].
  - rewrite !app_nil_l. cbn [lstrip]. by rewrite Hc.
  - rewrite app_cons. cbn [lstrip]. destruct (is_space d); [done|].
    by rewrite app_cons.
Qed.

Lemma lstrip_no_backtick (x : string) :
  no_backtick x = true → no_backtick (lstrip x) = true.
Proof.
  induction x as [|c x IH]; [done|]. cbn [no_backtick lstrip].
  intros [Hc Hx]%andb_true_iff. destruct (is_space c); [by apply IH|].
  cbn [no_backtick]. by rewrite Hc.
Qed.

Lemma no_backtick_app (x y : string) :
  no_backtick x = true → no_backtick y = true → no_backtick (x +:+ y) = true.
Proof.
  intros Hx Hy. induction x as [|c x IH]; [done|].
  cbn [no_backtick] in Hx. apply andb_true_iff in Hx as [Hc Hx].
  rewrite app_cons. cbn [no_backtick]. by rewrite Hc, IH.
Qed.

Lemma rstrip_app_space (x sp : string) :
  all_space sp = true → rstrip (x +:+ sp) = rstrip x.
Proof.
  intros Hsp. induction x as [|c x IH].
  - rewrite app_nil_l. induction sp as [|d sp IHsp]; [done|].
    cbn [all_space] in Hsp. apply andb_true_iff in Hsp as [Hd Hsp].
    cbn [rstrip]. by rewrite (IHsp Hsp), Hd.
  - rewrite app_cons. cbn [rstrip]. by rewrite IH.
Qed.

Lemma lstrip_all_space (sp : string) : all_space sp = true → lstrip sp = "".
Proof.
  induction sp as [|d sp IH]; [done|]. cbn [all_space lstrip].
  intros [Hd Hsp]%andb_true_iff. rewrite Hd. by apply IH.
Qed.

Lemma lstrip_idemp (x : string) : lstrip (lstrip x) = lstrip x.
Proof.
  induction x as [|c x IH]; [done|]. cbn [lstrip].
  destruct (is_space c) eqn:Hc; [done|]. cbn [lstrip]. by rewrite Hc.
Qed.

Lemma strip_app_space (x sp : string) :
  all_space sp = true → strip (x +:+ sp) = strip x.
Proof.
  intros Hsp. unfold strip. induction x as [|c x IH].
  - rewrite app_nil_l. by rewrite (lstrip_all_space _ Hsp).
  - rewrite app_cons. cbn [lstrip]. destruct (is_space c); [done|].
    rewrite <- app_cons. by apply rstrip_app_space.
Qed.

Lemma strip_lstrip (x : string) : strip (lstrip x) = strip x.
Proof. unfold strip. by rewrite lstrip_idemp. Qed.

(** X21. A response that holds no backtick is only trimmed by the
    cleaning. *)
Theorem clean_response_without_fence (response_text : string) :
  no_backtick response_text = true →
  clean_response response_text = strip response_text.
Proof.
  intros Hno. unfold clean_response.
  assert (no_json_fence response_text = true) as Hfence.
  { rewrite <- (app_nil_r response_text). by apply no_backtick_no_json_fence. }
  rewrite (proj1 (sub_fence_json_none _ Hfence)).
  by rewrite sub_fence_end_none.
Qed.

Lemma clean_response_without_fence_witness :
  clean_response "  [1, 2]  " = "[1, 2]".
Proof.
  rewrite (clean_response_without_fence "  [1, 2]  "); reflexivity.
Defined.

Lemma rstrip_app_stop (x : string) (c : ascii) :
  is_space c = false → rstrip (x +:+ String c "") = x +:+ String c "".
Proof.
  intros Hc. induction x as [|d x IH].
  - rewrite app_nil_l. cbn [rstrip]. by rewrite Hc.
  - rewrite app_cons. cbn [rstrip]. rewrite IH.
    destruct x; [by rewrite app_nil_l | by rewrite app_cons].
Qed.

(** The fenced response is already trimmed: the first [strip] of the source
    leaves it as it is. *)
Lemma strip_fenced (body : string) : strip (fenced body) = fenced body.
Proof.
  unfold strip, fenced.
  change (lstrip ("```json" +:+ nl +:+ body +:+ nl +:+ "```"))
    with ("```json" +:+ nl +:+ body +:+ nl +:+ "```").
  replace ("```json" +:+ nl +:+ body +:+ nl +:+ "```")
    with (("```json" +:+ nl +:+ body +:+ nl +:+ "``") +:+ String backtick "").
  - by apply rstrip_app_stop.
  - by rewrite !app_assoc.
Qed.

(** X22. A response wrapped in a [```json] fence is unwrapped: when the
    body holds no backtick, the cleaning returns the body, trimmed. *)
Theorem clean_response_unwraps_fence (body : string) :
  no_backtick body = true →
  clean_response (strip (fenced body)) = strip body.
Proof.
  intros Hno. rewrite strip_fenced. unfold clean_response, fenced.
  change (sub_fence_json 0 false ("```json" +:+ nl +:+ body +:+ nl +:+ "```"))
    with (sub_fence_json 0 true (body +:+ nl +:+ "```")).
  assert (no_json_fence (body +:+ nl +:+ "```") = true) as Hfence.
  { by apply no_backtick_no_json_fence. }
  rewrite (proj2 (sub_fence_json_none _ Hfence)).
  replace (body +:+ nl +:+ "```") with ((body +:+ nl) +:+ "```")
    by (by rewrite app_assoc).
  change "```" with (String backtick "``") at 1.
  rewrite lstrip_app_stop by reflexivity.
  change (String backtick "``") with "```".
  rewrite sub_fence_end_closing.
  - by rewrite strip_lstrip, strip_app_space.
  - by apply lstrip_no_backtick, no_backtick_app.
Qed.

Lemma clean_response_unwraps_fence_witness :
  clean_response (strip (fenced "[{}]")) = "[{}]".
Proof.
  rewrite (clean_response_unwraps_fence "[{}]"); reflexivity.
Defined.

End CleanProofs.

(** ** Chunks are pieces of the text *)

Module ChunkingPieces.
Import PyStr Chunking StringFacts ChunkingProofs.

Lemma substring_0_prefix (m : nat) (s : string) :
  ∃ post, s = substring 0 m s +:+ post.
Proof.
  revert m. induction s as [|c s IH]; intros m.
  - exists "". by destruct m.
  - destruct m as [|m]; cbn [substring].
    + by exists (String c s).
    + destruct (IH m) as [post Hpost]. exists post.
      rewrite app_cons. by f_equal.
Qed.

Lemma substring_occurs (n m : nat) (s : string) :
  ∃ pre post, s = pre +:+ substring n m s +:+ post.
Proof.
  revert n. induction s as [|c s IH]; intros n.
  - exists "", "". by destruct n, m.
  - destruct n as [|n].
    + destruct (substring_0_prefix m (String c s)) as [post Hpost].
      exists "", post. by rewrite app_nil_l.
    + cbn [substring]. destruct (IH n) as (pre & post & Heq).
      exists (String c pre), post. rewrite app_cons. by f_equal.
Qed.

Lemma lstrip_suffix (x : string) : ∃ pre, x = pre +:+ lstrip x.
Proof.
  induction x as [|c x [pre Hpre]]; [by exists ""|].
  cbn [lstrip]. destruct (is_space c).
  - exists (String c pre). rewrite app_cons. by f_equal.
  - by exists "".
Qed.

Lemma rstrip_prefix (x : string) : ∃ post, x = rstrip x +:+ post.
Proof.
  induction x as [|c x [post Hpost]]; [by exists ""|].
  cbn [rstrip]. destruct (rstrip x) as [|d r] eqn:Hr.
  - destruct (is_space c).
    + exists (String c x). by rewrite app_nil_l.
    + exists post. rewrite app_cons. f_equal. by rewrite Hpost, app_nil_l.
  - exists post. rewrite app_cons. by f_equal.
Qed.

(** What [strip] returns for a slice of the text stands in the text. *)
Lemma strip_slice_occurs (text : string) (a b : Z) :
  ∃ pre post, text = pre +:+ strip (slice text a b) +:+ post.
Proof.
  unfold slice.
  destruct (substring_occurs (Z.to_nat (adjust_index (len text) a))
              (Z.to_nat (adjust_index (len text) b - adjust_index (len text) a))
              text) as (pre1 & post1 & H1).
  set (window := substring _ _ text) in *.
  destruct (lstrip_suffix window) as [pre2 H2].
  destruct (rstrip_prefix (lstrip window)) as [post2 H3].
  exists (pre1 +:+ pre2), (post2 +:+ post1). unfold strip.
  rewrite H1 at 1. rewrite H2 at 1. rewrite H3 at 1.
  by rewrite !app_assoc.
Qed.

Lemma chunk_loop_pieces (fuel : nat) (text : string) (chunk_size overlap : Z) :
  ∀ start chunks result,
    Forall (λ c, contains c text = true) chunks →
    chunk_loop fuel text chunk_size overlap start chunks = Some result →
    Forall (λ c, contains c text = true) result.
Proof.
  induction fuel as [|fuel IH]; intros start chunks result Hall;
    cbn [chunk_loop]; [done|].
  destruct (start <? len text); [|by intros [= <-]].
  unfold chunk_step.
  destruct (truthy _) eqn:Ht; apply IH; [|done].
  apply Forall_app; split; [done|]. apply Forall_singleton.
  destruct (strip_slice_occurs text start (window_end text chunk_size start))
    as (pre & post & Heq).
  set (chunk := strip _) in *. clearbody chunk.
  rewrite Heq. apply contains_middle, contains_refl.
Qed.

(** X23. The chunker invents nothing: every chunk that [chunk_text]
    returns stands, character for character, somewhere in the text. *)
Theorem chunks_occur_in_text (fuel : nat) (text : string)
  (chunk_size overlap : Z) (chunks : list string) :
  chunk_text fuel text chunk_size overlap = Some chunks →
  Forall (λ c, contains c text = true) chunks.
Proof.
  unfold chunk_text. destruct (len text <=? chunk_size).
  - intros [= <-]. apply Forall_singleton, contains_refl.
  - by apply chunk_loop_pieces.
Qed.

Lemma chunks_occur_in_text_witness :
  Forall (λ c, contains c "alpha beta gamma delta epsilon" = true)
         ["alpha beta g"; "ta gamma del"; "delta epsil"; "psilon"].
Proof.
  apply (chunks_occur_in_text 20 "alpha beta gamma delta epsilon" 12 4).
  reflexivity.
Defined.

End ChunkingPieces.

(** ** The structure of a page *)

Module DocumentParserProofs.
Import PyStr ScriptGenerator DocumentParser Spec SelectorProofs.

(** Filtering by one name and by the others splits a list. *)
Lemma filter_names_cons (name : string) (names : list string) (l : list node) :
  name ∉ names →
  filter (λ n, tag_name n ∈ name :: names) l
  ≡ₚ filter (λ n, tag_name n ∈ [name]) l ++ filter (λ n, tag_name n ∈ names) l.
Proof.
  intros Hfresh. induction l as [|n l IH]; [done|].
  rewrite !filter_cons.
  destruct (decide (tag_name n ∈ [name])) as [Hn|Hn].
  - apply list_elem_of_singleton in Hn.
    rewrite decide_True by (rewrite Hn; by left).
    rewrite decide_False by (by rewrite Hn).
    simpl. by rewrite IH.
  - rewrite list_elem_of_singleton in Hn.
    destruct (decide (tag_name n ∈ names)) as [Hin|Hnot].
    + rewrite decide_True by (by right).
      rewrite IH. by rewrite Permutation_middle.
    + rewrite decide_False; [done|].
      intros [?|?]%elem_of_cons; done.
Qed.

Lemma grouped_by_name (names : list string) (l : list node) :
  NoDup names →
  List.flat_map (λ name, filter (λ n, tag_name n ∈ [name]) l) names
  ≡ₚ filter (λ n, tag_name n ∈ names) l.
Proof.
  induction 1 as [|name names Hfresh _ IH]; simpl.
  - induction l as [|n l IHl]; [done|]. rewrite filter_cons.
    rewrite decide_False; [done|]. apply not_elem_of_nil.
  - rewrite IH. symmetry. by apply filter_names_cons.
Qed.

Lemma flat_map_fmap_tag (soup : list node) (names : list string) :
  List.flat_map (λ tag, element_of tag <$> find_all [tag] soup) names
  = (λ n, element_of (tag_name n) n)
    <$> List.flat_map (λ name, find_all [name] soup) names.
Proof.
  induction names as [|name names IH]; simpl; [done|].
  rewrite fmap_app, IH. f_equal. apply list_fmap_ext.
  intros i n Hn. apply list_elem_of_lookup_2 in Hn.
  apply list_elem_of_filter in Hn as [Htag _].
  apply list_elem_of_singleton in Htag. by rewrite Htag.
Qed.

(** X24. [parse_html] lists every [input], [button], [select] and
    [textarea] element of the document exactly once, each under its own tag
    name: its [elements] are, up to order, those of the document in one
    pass. Its [forms] are the [form] elements in document order. An
    element of these kinds at any depth of the markup is listed with its
    [id], [name], [type] and [class] attributes, and a form with its [id],
    [action] and [method]. Links are not listed. *)
Theorem parse_html_lists_each_element_once (soup : list node) :
  elements (parse_html soup)
  ≡ₚ (λ n, element_of (tag_name n) n) <$> find_all structural soup
  ∧ length (elements (parse_html soup)) = length (find_all structural soup)
  ∧ forms (parse_html soup) = form_of <$> find_all ["form"] soup
  ∧ (∀ nm attrs cls children,
       occurs (Tag nm attrs cls children) soup → nm ∈ structural →
       {| el_tag := nm; el_id := attrs !! "id"; el_name := attrs !! "name";
          el_type := attrs !! "type"; el_class := cls |}
       ∈ elements (parse_html soup))
  ∧ (∀ attrs cls children,
       occurs (Tag "form" attrs cls children) soup →
       {| form_id := attrs !! "id"; form_action := attrs !! "action";
          form_method := attrs !! "method" |}
       ∈ forms (parse_html soup))
  ∧ Forall (λ e, el_tag e ∈ structural) (elements (parse_html soup)).
Proof.
  assert (elements (parse_html soup)
          ≡ₚ (λ n, element_of (tag_name n) n) <$> find_all structural soup) as Hperm.
  { unfold parse_html. cbn [elements]. rewrite flat_map_fmap_tag.
    apply fmap_Permutation. unfold find_all.
    apply grouped_by_name. compute_done. }
  split; [done|]. split; [|split; [|split; [|split]]].
  - by rewrite Hperm, length_fmap.
  - reflexivity.
  - intros nm attrs cls children Hocc Hnm. rewrite Hperm.
    apply list_elem_of_fmap. exists (Tag nm attrs cls children).
    split; [done|]. by apply occurs_find_all.
  - intros attrs cls children Hocc. unfold parse_html. cbn [forms].
    apply list_elem_of_fmap. exists (Tag "form" attrs cls children).
    split; [done|]. apply occurs_find_all; [done|]. by left.
  - rewrite Hperm. apply Forall_fmap, Forall_forall. intros n Hn.
    apply list_elem_of_filter in Hn as [Htag _].
    by destruct n.
Qed.

Lemma parse_html_lists_each_element_once_witness :
  {| el_tag := "input"; el_id := Some "email"; el_name := None;
     el_type := Some "text"; el_class := Some ["wide"] |}
  ∈ elements (parse_html
      [ Tag "form" {[ "id" := "login" ]} None
          [ Tag "div" ∅ None
              [ Tag "input" {[ "id" := "email"; "type" := "text" ]}
                  (Some ["wide"]) [] ] ] ]).
Proof.
  replace {| el_tag := "input"; el_id := Some "email"; el_name := None;
             el_type := Some "text"; el_class := Some ["wide"] |}
    with (element_of "input"
            (Tag "input" {[ "id" := "email"; "type" := "text" ]} (Some ["wide"]) []))
    by (vm_compute; reflexivity).
  apply (proj1 (proj2 (proj2 (proj2
           (parse_html_lists_each_element_once
              [ Tag "form" {[ "id" := "login" ]} None
                  [ Tag "div" ∅ None
                      [ Tag "input" {[ "id" := "email"; "type" := "text" ]}
                          (Some ["wide"]) [] ] ] ]))))
           "input" {[ "id" := "email"; "type" := "text" ]} (Some ["wide"]) []).
  - eapply occurs_below; [by left|].
    eapply occurs_below; [by left|].
    apply occurs_here. by left.
  - by left.
Defined.

End DocumentParserProofs.
